(** * postgres-backuper: a shallow embedding of the backup orchestrator

    The development follows the Go sources: the archive decoder
    [UntarReaderToMem], the name resolvers [getAppName], [getDatabaseName]
    and [getDatabaseUser], the wait loop [waitForExecToEnd], the extractor
    [DumpData], the uploader [UploadDump] and the orchestrator
    [BackupContainer] / [Scan].

    Go strings are byte sequences, so they are Rocq [string]s; a
    [map[string]T] is a [gmap string T]; the container runtime, the object
    store and the clock are collaborators whose answers are taken from an
    explicit world state that is threaded through every call. *)

From Stdlib Require Import ZArith NArith Ascii String List Lia DecimalString.
From Stdlib.Strings Require Import Byte.
From stdpp Require Import base option list gmap strings.

Local Open Scope string_scope.
Local Open Scope nat_scope.
Local Open Scope list_scope.

(** ** Go values *)

(** An [error] is observed only through its message. *)
Definition error := string.

(** Run-time panics the orchestrator can raise: slicing [s[:hi]] beyond
    the length of [s], and reading a field through a nil pointer. *)
Inductive panic :=
| SliceBoundsOutOfRange (hi len : nat)
| NilPointerDereference.

Inductive Result (A : Type) :=
| Ret (a : A)
| Panic (p : panic).
Arguments Ret {A} a.
Arguments Panic {A} p.

(** [s[:hi]] on a Go string: the first [hi] bytes, or a panic when the
    string is shorter. *)
Definition slice_to (s : string) (hi : nat) : Result string :=
  if decide (hi ≤ String.length s)
  then Ret (substring 0 hi s)
  else Panic (SliceBoundsOutOfRange hi (String.length s)).

(** [strings.TrimPrefix(s, prefix)]. *)
Definition TrimPrefix (s pre : string) : string :=
  if String.prefix pre s
  then substring (String.length pre) (String.length s - String.length pre) s
  else s.

(** [strings.Cut] on a one-byte separator: the text before and after its
    first occurrence. *)
Fixpoint cut (sep : ascii) (s : string) : option (string * string) :=
  match s with
  | EmptyString => None
  | String a s' =>
      if Ascii.eqb a sep then Some (EmptyString, s')
      else match cut sep s' with
           | Some (p, q) => Some (String a p, q)
           | None => None
           end
  end.

(** [strings.SplitN(s, sep, n)] for a one-byte separator and [n >= 0]: at
    most [n] substrings, the last one being the unsplit remainder. *)
Fixpoint SplitN (s : string) (sep : ascii) (n : nat) : list string :=
  match n with
  | 0 => []
  | 1 => [s]
  | S n' =>
      match cut sep s with
      | Some (p, q) => p :: SplitN q sep n'
      | None => [s]
      end
  end.

(** ** The container descriptor ([types.Container]) *)

Record Container := {
  ID : string;
  Names : list string;
  Labels : gmap string string
}.

(** ** Application name *)

(** [getAppName] of the current sources. *)
Definition getAppName (container : Container) : Result string :=
  match Labels container !! "postgres-backup/app-name" with
  | Some value => Ret value
  | None =>
      match Names container with
      | name0 :: _ => Ret name0
      | [] => slice_to (ID container) 12
      end
  end.

(** The earlier revision kept in main.go looks the override up under the
    empty label key. *)
Module MainGo.

Definition getAppName (container : Container) : Result string :=
  match Labels container !! "" with
  | Some value => Ret value
  | None =>
      match Names container with
      | name0 :: _ => Ret name0
      | [] => slice_to (ID container) 12
      end
  end.

End MainGo.

(** ** Environment scan of the database resolvers

    The body of the [for _, value := range details.Config.Env] loop shared
    by [getDatabaseName] and [getDatabaseUser]; [key] is the variable the
    caller looks for. *)
Fixpoint rangeEnv (key : string) (env : list string) : string :=
  match env with
  | [] => "postgres"
  | value :: rest =>
      let splits := SplitN value "="%char 2 in
      if negb (length splits =? 2) then "postgres"
      else if String.eqb (nth 0 splits "") key then nth 1 splits ""
      else rangeEnv key rest
  end.

(** ** The archive reader (package archive/tar, consumed)

    A reader over the copied-out stream is represented by what
    [tar.Reader] yields on it: the successive results of [Next], each
    regular entry carrying the result [io.ReadAll] gives on its body. *)

Definition TypeReg : ascii := "0"%char.
Definition TypeSymlink : ascii := "2"%char.
Definition TypeDir : ascii := "5"%char.

Record Header := {
  Name : string;
  Typeflag : ascii
}.

Inductive TarReader :=
| AtEOF
| NextFails (err : error)
| NextEntry (header : option Header) (body : list byte + error)
            (rest : TarReader).

(** [errors.Wrap(err, message)]. *)
Definition Wrap (err : error) (message : string) : error :=
  message +:+ ": " +:+ err.

Fixpoint untarLoop (tarReader : TarReader) (fileMap : gmap string (list byte))
  : gmap string (list byte) + error :=
  match tarReader with
  | AtEOF => inl fileMap
  | NextFails err => inr err
  | NextEntry None _ rest => untarLoop rest fileMap
  | NextEntry (Some header) body rest =>
      if Ascii.eqb (Typeflag header) TypeReg then
        match body with
        | inr err => inr (Wrap err "unable to extract tar file")
        | inl contents =>
            let path := TrimPrefix (Name header) "/" in
            untarLoop rest (<[path := contents]> fileMap)
        end
      else untarLoop rest fileMap
  end.

Definition UntarReaderToMem (reader : TarReader)
  : gmap string (list byte) + error :=
  untarLoop reader ∅.

(** What [tar.Reader] yields on an archive into which [tar.Writer] wrote
    the given entries one after the other and was closed: every entry with
    its body, then [io.EOF]. *)
Fixpoint archive (entries : list (Header * list byte)) : TarReader :=
  match entries with
  | [] => AtEOF
  | (h, contents) :: rest => NextEntry (Some h) (inl contents) (archive rest)
  end.

(** The tape-archive encoding of a file map given as a list of named
    files: one regular entry per file. *)
Definition tarOfFiles (files : list (string * list byte)) : TarReader :=
  archive (map (λ f, ({| Name := f.1; Typeflag := TypeReg |}, f.2)) files).

(** ** Timestamps (package time, consumed) *)

Record Time := {
  year : nat; month : nat; day : nat;
  hour : nat; minute : nat; second : nat;
  offset : Z  (* seconds east of UTC *)
}.

(** Decimal rendering, zero-padded on the left to [width] digits. *)
Definition appendInt (n width : nat) : string :=
  let digits := NilZero.string_of_uint (Nat.to_uint n) in
  String.concat "" (replicate (width - String.length digits) "0") +:+ digits.

(** The zone suffix of the layout [Z07:00]. *)
Definition zoneSuffix (off : Z) : string :=
  if (off =? 0)%Z then "Z"
  else
    let zone := (off ÷ 60)%Z in
    let sign := if (zone <? 0)%Z then "-" else "+" in
    let zone := Z.to_nat (Z.abs zone) in
    sign +:+ appendInt (zone / 60) 2 +:+ ":" +:+ appendInt (zone mod 60) 2.

(** [t.Format(time.RFC3339)], layout [2006-01-02T15:04:05Z07:00]. *)
Definition RFC3339 (t : Time) : string :=
  appendInt (year t) 4 +:+ "-" +:+ appendInt (month t) 2 +:+ "-" +:+
  appendInt (day t) 2 +:+ "T" +:+ appendInt (hour t) 2 +:+ ":" +:+
  appendInt (minute t) 2 +:+ ":" +:+ appendInt (second t) 2 +:+
  zoneSuffix (offset t).

(** ** Collaborators and observable effects *)

(** [types.ContainerExecInspect], as far as the wait loop reads it. *)
Record ExecInspect := { Running : bool }.

(** [minio.UploadInfo], as far as the uploader reads it. *)
Record UploadInfo := { Location : string }.

(** What a run leaves behind: lines handed to the logger (each with the
    operands of its [Println]), lines printed on standard output, objects
    put to the store, and the closing of the copied-out stream. *)
Inductive Event :=
| EvLog (operands : list string)
| EvStdout (operands : list string)
| EvPut (bucket key : string) (payload : list byte)
| EvClose.

(** The backuper with its collaborators.  Every call takes the world
    state and hands back its Go results with the next state.  Where the
    caller looks at a result after a non-nil error, both are given;
    elsewhere a call yields its value or its error.  An inspection that
    succeeds yields [details.Config.Env], or [None] when [details.Config]
    is nil.  A status poll also reports how many milliseconds it took. *)
Record Backuper (W : Type) := {
  ContainerList :
    list (string * string) → W → (list Container * option error) * W;
  ContainerInspect : string → W → (option (list string) + error) * W;
  ContainerExecCreate : string → list string → W → (string + error) * W;
  ContainerExecStart : string → W → option error * W;
  ContainerExecInspect : string → W → (ExecInspect * option error * N) * W;
  CopyFromContainer : string → string → W → (TarReader + error) * W;
  PutObject :
    string → string → list byte → W → (UploadInfo * option error) * W;
  Now : W → Time * W;
  bucket : string
}.
Arguments ContainerList {W}.
Arguments ContainerInspect {W}.
Arguments ContainerExecCreate {W}.
Arguments ContainerExecStart {W}.
Arguments ContainerExecInspect {W}.
Arguments CopyFromContainer {W}.
Arguments PutObject {W}.
Arguments Now {W}.
Arguments bucket {W}.

(** ** Computations: world state, emitted events, possible panic *)

Record Outcome (W A : Type) := {
  trace : list Event;
  world : W;
  result : Result A
}.
Arguments trace {W A}.
Arguments world {W A}.
Arguments result {W A}.

Definition M (W A : Type) : Type := W → Outcome W A.

#[global] Instance M_ret {W} : MRet (M W) := λ A a w,
  {| trace := []; world := w; result := Ret a |}.

#[global] Instance M_bind {W} : MBind (M W) := λ A B f m w,
  let o := m w in
  match result o with
  | Ret a =>
      let o' := f a (world o) in
      {| trace := trace o ++ trace o'; world := world o';
         result := result o' |}
  | Panic p => {| trace := trace o; world := world o; result := Panic p |}
  end.

Definition emit {W} (e : Event) : M W unit := λ w,
  {| trace := [e]; world := w; result := Ret tt |}.

Definition call {W A} (f : W → A * W) : M W A := λ w,
  {| trace := []; world := (f w).2; result := Ret (f w).1 |}.

Definition lift {W A} (r : Result A) : M W A := λ w,
  {| trace := []; world := w; result := r |}.

(** ** The backuper's methods *)

Definition timeout_ms : N := 30000.
Definition poll_interval_ms : N := 250.

(** How [waitForExecToEnd] comes back: a value arrived on the channel at
    the given instant (milliseconds after the wait began), or the timer
    of [time.After] fired first. *)
Inductive Wait :=
| Signalled (at_ms : N)
| TimedOut.

Definition elapsed_ms (r : Wait) : N :=
  match r with
  | Signalled t => t
  | TimedOut => timeout_ms
  end.

Section Methods.
Context {W : Type} (b : Backuper W).

Definition getDatabaseName (container : Container) : M W string :=
  match Labels container !! "postgres-backup/db-name" with
  | Some value => mret value
  | None =>
      details ← call (ContainerInspect b (ID container));
      match details with
      | inr _ => mret "postgres"
      | inl None => lift (Panic NilPointerDereference)
      | inl (Some env) => mret (rangeEnv "POSTGRES_DB" env)
      end
  end.

Definition getDatabaseUser (container : Container) : M W string :=
  match Labels container !! "postgres-backup/db-user" with
  | Some value => mret value
  | None =>
      details ← call (ContainerInspect b (ID container));
      match details with
      | inr _ => mret "postgres"
      | inl None => lift (Panic NilPointerDereference)
      | inl (Some env) => mret (rangeEnv "POSTGRES_USER" env)
      end
  end.

(** The polling goroutine raced against the timer, on a virtual clock
    [t].  One round is one pass through the goroutine's loop body; the
    caller returns at the first send or when [timeout_ms] is reached,
    whichever comes first (the timer wins a tie).  [rounds] bounds the
    passes; [None] means the bound was too small. *)
Fixpoint poller (rounds : nat) (execID : string) (t : N) (w : W)
  : option (Wait * W) :=
  match rounds with
  | 0 => None
  | S rounds' =>
      let '(inspect, err, took, w') := ContainerExecInspect b execID w in
      let t1 := (t + took)%N in
      if (timeout_ms <=? t1)%N then Some (TimedOut, w')
      else
        let sent := bool_decide (err ≠ None) in
        if negb (Running inspect) then Some (Signalled t1, w')
        else if sent then Some (Signalled t1, w')
        else
          let t2 := (t1 + poll_interval_ms)%N in
          if (timeout_ms <=? t2)%N then Some (TimedOut, w')
          else poller rounds' execID t2 w'
  end.

(** Each pass sleeps 250 ms, so no more than 120 passes start before
    the 30 s timer fires (see [poller_rounds_suffice]). *)
Definition max_rounds : nat := 120.

Definition await (execID : string) (w : W) : Wait * W :=
  default (TimedOut, w) (poller max_rounds execID 0%N w).

Definition waitForExecToEnd (execID : string) : M W unit := λ w,
  match await execID w with
  | (TimedOut, w') =>
      {| trace := [EvLog ["Timed out waiting for exec"; execID]];
         world := w'; result := Ret tt |}
  | (Signalled _, w') =>
      {| trace := []; world := w'; result := Ret tt |}
  end.

Definition pg_dump_cmd (user dbName : string) : list string :=
  ["bash"; "-c";
   "pg_dump -U " +:+ user +:+ " " +:+ dbName +:+ " > /tmp/dump.sql"].

Definition DumpData (container : Container) (dbName user : string)
  : M W (TarReader + error) :=
  execResp ← call (ContainerExecCreate b (ID container)
                     (pg_dump_cmd user dbName));
  match execResp with
  | inr err => mret (inr err)
  | inl execID =>
      started ← call (ContainerExecStart b execID);
      match started with
      | Some err => mret (inr err)
      | None =>
          waitForExecToEnd execID;;
          copied ← call (CopyFromContainer b (ID container)
                           "/tmp/dump.sql");
          match copied with
          | inr err => mret (inr err)
          | inl reader => mret (inl reader)
          end
      end
  end.

(** [fmt.Sprintf("%s/%s.sql", appName, now)]. *)
Definition objectKey (appName now : string) : string :=
  appName +:+ "/" +:+ now +:+ ".sql".

(** The map [UploadDump] goes on with: the decoder's error is assigned
    and never read, and on error the map is nil. *)
Definition decoded (r : gmap string (list byte) + error)
  : gmap string (list byte) :=
  match r with
  | inl mem => mem
  | inr _ => ∅
  end.

Definition UploadDump (appName : string) (reader : TarReader)
  : M W unit :=
  let mem := decoded (UntarReaderToMem reader) in
  t ← call (Now b);
  let now := RFC3339 t in
  let key := objectKey appName now in
  let payload := default [] (mem !! "dump.sql") in
  emit (EvPut (bucket b) key payload);;
  '(info, err) ← call (PutObject b (bucket b) key payload);
  match err with
  | Some e => emit (EvLog ["Failed to upload backup file for"; appName;
                           ":"; e])
  | None => mret tt
  end;;
  emit (EvLog ["Uploaded backup file"; Location info]);;
  emit EvClose.

Definition BackupContainer (container : Container) : M W unit :=
  id12 ← lift (slice_to (ID container) 12);
  emit (EvLog ["Starting backup for container"; id12]);;
  appName ← lift (getAppName container);
  dbName ← getDatabaseName container;
  user ← getDatabaseUser container;
  response ← DumpData container dbName user;
  match response with
  | inr err =>
      id12 ← lift (slice_to (ID container) 12);
      emit (EvLog ["Failed to dump data for"; id12; ":"; err])
  | inl reader =>
      UploadDump appName reader;;
      id12 ← lift (slice_to (ID container) 12);
      emit (EvLog ["Finished backup for container"; id12])
  end.

(** [for _, container := range result { b.BackupContainer(container) }] *)
Fixpoint rangeContainers (result : list Container) : M W unit :=
  match result with
  | [] => mret tt
  | container :: rest =>
      BackupContainer container;; rangeContainers rest
  end.

Definition scanFilters : list (string * string) :=
  [("label", "postgres-backup=true")].

Definition Scan : M W unit :=
  emit (EvLog ["Start containers scan"]);;
  '(result, err) ← call (ContainerList b scanFilters);
  match err with
  | Some e => emit (EvStdout ["Failed to list containers:"; e])
  | None => mret tt
  end;;
  rangeContainers result;;
  emit (EvLog ["End containers scan"]).

End Methods.

(** ** Notions used to state the properties *)

(** Containers for which a backup was begun, as the log shows them. *)
Definition started (e : Event) : option string :=
  match e with
  | EvLog [first; id12] =>
      if String.eqb first "Starting backup for container" then Some id12
      else None
  | _ => None
  end.

Definition starts (tr : list Event) : list string := omap started tr.

(** Objects handed to the store. *)
Definition put (e : Event) : option (string * string * list byte) :=
  match e with
  | EvPut bkt key payload => Some (bkt, key, payload)
  | _ => None
  end.

Definition puts (tr : list Event) : list (string * string * list byte) :=
  omap put tr.

(** The identifier as the log shows it. *)
Definition shortID (container : Container) : string :=
  substring 0 12 (ID container).

(** The assignments [fileMap[path] = contents] the decoder performs on a
    well-formed stream, in stream order. *)
Definition store (fileMap : gmap string (list byte))
    (entry : Header * list byte) : gmap string (list byte) :=
  if Ascii.eqb (Typeflag entry.1) TypeReg
  then <[TrimPrefix (Name entry.1) "/" := entry.2]> fileMap
  else fileMap.

(** What a resolver makes of the answer to its inspection, looking for
    the variable [key]. *)
Definition resolved (key : string) (details : option (list string) + error)
  : Result string :=
  match details with
  | inr _ => Ret "postgres"
  | inl None => Panic NilPointerDereference
  | inl (Some env) => Ret (rangeEnv key env)
  end.

(** An environment entry declaring some variable other than [key]. *)
Definition declaresOther (key entry : string) : Prop :=
  ∃ k v, cut "="%char entry = Some (k, v) ∧ k ≠ key.

(** An environment entry with no ['=']. *)
Definition malformed (entry : string) : Prop :=
  cut "="%char entry = None.

Section Stages.
Context {W : Type} (b : Backuper W).

(** The resolution of the database coordinates followed by the
    extraction, as [BackupContainer] sequences them. *)
Definition dumpStage (container : Container) : M W (TarReader + error) :=
  dbName ← getDatabaseName b container;
  user ← getDatabaseUser b container;
  DumpData b container dbName user.

(** Every inspection that succeeds carries a [Config]. *)
Definition inspectsWithConfig : Prop :=
  ∀ id w, (ContainerInspect b id w).1 ≠ inl None.

(** The world after [n] status polls of an invocation. *)
Fixpoint afterPolls (n : nat) (execID : string) (w : W) : W :=
  match n with
  | 0 => w
  | S n' => afterPolls n' execID (ContainerExecInspect b execID w).2
  end.

(** The invocation never reports finished: every poll, however late,
    answers "running" without error. *)
Definition neverFinished (execID : string) (w : W) : Prop :=
  ∀ n, (ContainerExecInspect b execID (afterPolls n execID w)).1.1
       = ({| Running := true |}, None).

(** The same backuper, except that a status poll answering with an
    error is replaced by one reporting the command finished. *)
Definition pollErrorsAsFinished : Backuper W :=
  {| ContainerList := ContainerList b;
     ContainerInspect := ContainerInspect b;
     ContainerExecCreate := ContainerExecCreate b;
     ContainerExecStart := ContainerExecStart b;
     ContainerExecInspect := λ execID w,
       let '(inspect, err, took, w') := ContainerExecInspect b execID w in
       match err with
       | Some _ => ({| Running := false |}, None, took, w')
       | None => (inspect, err, took, w')
       end;
     CopyFromContainer := CopyFromContainer b;
     PutObject := PutObject b;
     Now := Now b;
     bucket := bucket b |}.

End Stages.

(** What a database resolver does for a container: [label] is its
    override label, [key] the environment variable it falls back to. *)
Definition resolves {W : Type} (b : Backuper W) (label key : string)
    (resolve : Container → M W string) : Prop :=
  ∀ (c : Container) (w : W),
    (* it logs nothing *)
    trace (resolve c w) = [] ∧
    (* the override label wins, and the container is not inspected *)
    (∀ value, Labels c !! label = Some value →
       result (resolve c w) = Ret value ∧ world (resolve c w) = w) ∧
    (Labels c !! label = None →
       (* a failed inspection gives the default *)
       (∀ e, (ContainerInspect b (ID c) w).1 = inr e →
          result (resolve c w) = Ret "postgres") ∧
       (* an inspection without a [Config] is the one way to panic *)
       ((ContainerInspect b (ID c) w).1 = inl None ↔
        ∃ p, result (resolve c w) = Panic p) ∧
       (∀ env, (ContainerInspect b (ID c) w).1 = inl (Some env) →
          (* whatever the entries, malformed or not, it returns *)
          (∃ v, result (resolve c w) = Ret v) ∧
          (* the first declaration of [key], with well-formed entries for
             other variables before it, gives its value *)
          (∀ pre v post, env = pre ++ (key +:+ "=" +:+ v) :: post →
             Forall (declaresOther key) pre →
             result (resolve c w) = Ret v) ∧
          (* no declaration of [key] among well-formed entries gives the
             default *)
          (Forall (declaresOther key) env →
             result (resolve c w) = Ret "postgres") ∧
          (* an entry without ['='] met before any declaration of [key]
             gives the default *)
          (∀ pre bad post, env = pre ++ bad :: post →
             Forall (declaresOther key) pre → malformed bad →
             result (resolve c w) = Ret "postgres"))).

(** ** A small concrete deployment, used for the worked examples *)

Module Demo.

Definition newYear2023 : Time :=
  {| year := 2023; month := 1; day := 1;
     hour := 0; minute := 0; second := 0; offset := 0 |}.

Definition dump : list byte := [x2d; x2d; x0a].

Definition container (id name : string) : Container :=
  {| ID := id; Names := [name];
     Labels := {[ "postgres-backup" := "true" ]} |}.

Definition first : Container := container "aaaaaaaaaaaa0001" "/shop-db".
Definition second : Container := container "bbbbbbbbbbbb0002" "/blog-db".
Definition third : Container := container "cccccccccccc0003" "/wiki-db".
Definition stub : Container := container "abc" "/stub-db".

(** A runtime without state of its own.  [listing] is what the listing
    call answers, [inspected] what inspecting a container answers,
    [refused] tells for which containers the creation of the invocation
    fails, [poll] is the answer to every status poll, [copy] what is
    copied out of a container, [putError] the error of every put. *)
Definition backuper
    (listing : list Container * option error)
    (inspected : option (list string) + error)
    (refused : string → bool)
    (poll : ExecInspect * option error * N)
    (copy : string → TarReader + error)
    (putError : option error) : Backuper unit :=
  {| ContainerList := λ _ w, (listing, w);
     ContainerInspect := λ _ w, (inspected, w);
     ContainerExecCreate := λ id _ w,
       (if refused id then inr "No such container" else inl ("exec-" +:+ id),
        w);
     ContainerExecStart := λ _ w, (None, w);
     ContainerExecInspect := λ _ w, (poll, w);
     CopyFromContainer := λ id _ w, (copy id, w);
     PutObject := λ bkt key _ w,
       (match putError with
        | Some e => {| Location := "" |}
        | None => {| Location := "http://minio/" +:+ bkt +:+ "/" +:+ key |}
        end, putError, w);
     Now := λ w, (newYear2023, w);
     bucket := "backups" |}.

Definition declared : option (list string) + error :=
  inl (Some ["PATH=/usr/bin"; "POSTGRES_USER=admin"; "POSTGRES_DB=shop"]).

Definition finished : ExecInspect * option error * N :=
  ({| Running := false |}, None, 5%N).
Definition running : ExecInspect * option error * N :=
  ({| Running := true |}, None, 5%N).

Definition goodCopy (id : string) : TarReader + error :=
  inl (tarOfFiles [("dump.sql", dump)]).

(** The second container refuses the invocation. *)
Definition secondRefuses : Backuper unit :=
  backuper ([first; second; third], None) declared
           (String.eqb (ID second)) finished goodCopy None.

(** The copied-out stream of every container is cut short. *)
Definition truncatedCopy : Backuper unit :=
  backuper ([first], None) declared (λ _, false) finished
           (λ _, inl (NextFails "unexpected EOF")) None.

(** A container with a three-byte identifier is listed before a
    regular one. *)
Definition stubListed : Backuper unit :=
  backuper ([stub; first], None) declared (λ _, false) finished goodCopy None.

(** The invocation of every container keeps running. *)
Definition stillRunning : Backuper unit :=
  backuper ([first], None) declared (λ _, false) running goodCopy None.

(** The listing call fails. *)
Definition listingFails : Backuper unit :=
  backuper ([], Some "Cannot connect to the Docker daemon") declared
           (λ _, false) finished goodCopy None.

(** Every status poll fails. *)
Definition pollFails : Backuper unit :=
  backuper ([first], None) declared (λ _, false)
           ({| Running := false |}, Some "No such exec instance", 5%N)
           goodCopy None.

(** The environment holds an entry without ['='], before or after the
    declarations. *)
Definition malformedFirst : Backuper unit :=
  backuper ([first], None)
           (inl (Some ["garbage"; "POSTGRES_DB=shop"; "POSTGRES_USER=admin"]))
           (λ _, false) finished goodCopy None.
Definition malformedLast : Backuper unit :=
  backuper ([first], None)
           (inl (Some ["POSTGRES_DB=shop"; "POSTGRES_USER=admin"; "garbage"]))
           (λ _, false) finished goodCopy None.

(** Inspecting a container fails. *)
Definition inspectFails : Backuper unit :=
  backuper ([first], None) (inr "No such container")
           (λ _, false) finished goodCopy None.

(** Inspecting a container succeeds without a [Config]. *)
Definition nilConfig : Backuper unit :=
  backuper ([first; second], None) (inl None)
           (λ _, false) finished goodCopy None.

(** The store rejects every put. *)
Definition putFails : Backuper unit :=
  backuper ([first], None) declared (λ _, false) finished goodCopy
           (Some "Access Denied").

End Demo.

(** ** Further notions: streams that break off, closed streams *)

(** The stream that yields the given entries and then goes on as [tail]. *)
Fixpoint prepend (entries : list (Header * list byte)) (tail : TarReader)
  : TarReader :=
  match entries with
  | [] => tail
  | (h, contents) :: rest =>
      NextEntry (Some h) (inl contents) (prepend rest tail)
  end.

(** The keys the decoder assigns on a well-formed stream. *)
Definition regularName (entry : Header * list byte) : option string :=
  if Ascii.eqb (Typeflag entry.1) TypeReg
  then Some (TrimPrefix (Name entry.1) "/")
  else None.

Definition regularNames (entries : list (Header * list byte)) : list string :=
  omap regularName entries.

(** Copied-out streams that were closed. *)
Definition closed (e : Event) : option unit :=
  match e with
  | EvClose => Some tt
  | _ => None
  end.

Definition closes (tr : list Event) : nat := length (omap closed tr).

(** ** The pipeline of the main.go revision

    The earlier revision attaches to the invocation and uploads what the
    attached stream carries after the first group separator. *)

Module MainGoBackuper.

(** [types.ExecConfig], as far as it is filled in. *)
Record ExecConfig := {
  AttachStdout : bool;
  AttachStderr : bool;
  Cmd : list string
}.

(** [types.HijackedResponse], as far as it is read: the buffered reader,
    nil in the zero value. *)
Record HijackedResponse := { Reader : option (list byte) }.

Record Backuper (W : Type) := {
  ContainerExecCreate : string → ExecConfig → W → (string + error) * W;
  ContainerExecAttach : string → W → (HijackedResponse + error) * W;
  PutObject :
    string → string → list byte → W → (UploadInfo * option error) * W;
  Now : W → Time * W
}.
Arguments ContainerExecCreate {W}.
Arguments ContainerExecAttach {W}.
Arguments PutObject {W}.
Arguments Now {W}.

(** What is left of a buffered reader after [ReadBytes(delim)]: the bytes
    after the first [delim], nothing when there is none. *)
Fixpoint afterReadBytes (delim : byte) (data : list byte) : list byte :=
  match data with
  | [] => []
  | x :: rest => if Byte.eqb x delim then rest else afterReadBytes delim rest
  end.

Section Methods.
Context {W : Type} (b : Backuper W).

Definition DumpData (container : Container)
  : M W (HijackedResponse * option error) :=
  execResp ← call (ContainerExecCreate b (ID container)
                     {| AttachStdout := true; AttachStderr := true;
                        Cmd := ["pg_dump"; "-U"; "postgres"] |});
  match execResp with
  | inr err => mret ({| Reader := None |}, Some err)
  | inl execID =>
      attachResp ← call (ContainerExecAttach b execID);
      match attachResp with
      | inr _ => mret ({| Reader := None |}, None)
      | inl attached => mret (attached, None)
      end
  end.

(** [UploadDump] on a non-nil reader holding [data]. *)
Definition UploadDump (appName : string) (data : list byte) : M W unit :=
  let remaining := afterReadBytes x1d data in
  t ← call (Now b);
  let now := RFC3339 t in
  let key := appName +:+ "/" +:+ now +:+ ".sql" in
  emit (EvPut "backups" key remaining);;
  '(info, err) ← call (PutObject b "backups" key remaining);
  match err with
  | Some e => emit (EvLog ["Failed to upload backup file for"; appName;
                           ":"; e])
  | None => mret tt
  end;;
  emit (EvLog ["Uploaded backup file"; Location info]).

End Methods.

End MainGoBackuper.

(** ** Further deployments for the worked examples *)

Module Cases.

(** The listing call hands back a container together with an error. *)
Definition listingHalfFails : Backuper unit :=
  Demo.backuper ([Demo.first], Some "json: cannot unmarshal") Demo.declared
                (λ _, false) Demo.finished Demo.goodCopy None.

(** A three-byte identifier is listed between two regular ones. *)
Definition stubInTheMiddle : Backuper unit :=
  Demo.backuper ([Demo.first; Demo.stub; Demo.third], None) Demo.declared
                (λ _, false) Demo.finished Demo.goodCopy None.

(** The copy out of every container fails. *)
Definition copyFails : Backuper unit :=
  Demo.backuper ([Demo.first], None) Demo.declared (λ _, false)
                Demo.finished (λ _, inr "Could not find the file") None.

(** A container carrying both database override labels. *)
Definition labelled : Container :=
  {| ID := "dddddddddddd0004"; Names := ["/orders-db"];
     Labels := {[ "postgres-backup" := "true";
                  "postgres-backup/db-name" := "orders";
                  "postgres-backup/db-user" := "clerk" ]} |}.

(** A runtime of the main.go revision: creation fails for the identifier
    [refused], attaching fails when [attachError] is set, and the
    attached stream carries [data]. *)
Definition mainGo (refused : string) (attachError : option error)
    (data : list byte) : MainGoBackuper.Backuper unit :=
  {| MainGoBackuper.ContainerExecCreate := λ id _ w,
       (if String.eqb id refused then inr "No such container"
        else inl ("exec-" +:+ id), w);
     MainGoBackuper.ContainerExecAttach := λ _ w,
       (match attachError with
        | Some e => inr e
        | None => inl {| MainGoBackuper.Reader := Some data |}
        end, w);
     MainGoBackuper.PutObject := λ bkt key _ w,
       ({| Location := "http://minio/" +:+ bkt +:+ "/" +:+ key |}, None, w);
     MainGoBackuper.Now := λ w, (Demo.newYear2023, w) |}.

End Cases.

(** * Properties *)

(** ** Strings *)

Local Arguments String.append !_ _ / : simpl nomatch.

Lemma substring_0_length (n : nat) (s : string) :
  n ≤ String.length s → String.length (substring 0 n s) = n.
Proof.
  revert s. induction n as [|n IH]; intros [|a s] Hn; simpl in *;
    try reflexivity; try lia.
  rewrite IH; [reflexivity | lia].
Qed.

Lemma substring_0_prefix (n : nat) (s : string) :
  n ≤ String.length s → ∃ rest, s = substring 0 n s +:+ rest.
Proof.
  revert s. induction n as [|n IH]; intros [|a s] Hn; simpl in *;
    try lia.
  - by exists "".
  - by exists (String a s).
  - destruct (IH s) as [rest Hrest]; [lia|].
    exists rest. simpl. by f_equal.
Qed.

Lemma slice_to_Ret (s : string) (hi : nat) :
  hi ≤ String.length s → slice_to s hi = Ret (substring 0 hi s).
Proof. intros H. unfold slice_to. by rewrite decide_True. Qed.

Lemma slice_to_Panic (s : string) (hi : nat) :
  String.length s < hi →
  slice_to s hi = Panic (SliceBoundsOutOfRange hi (String.length s)).
Proof. intros H. unfold slice_to. rewrite decide_False; [done | lia]. Qed.

(** [cut] finds the first separator: what precedes it is free of it. *)
Lemma cut_Some (sep : ascii) (s k v : string) :
  cut sep s = Some (k, v) →
  s = k +:+ String sep v ∧ cut sep k = None.
Proof.
  revert k v. induction s as [|a s IH]; intros k v H; simpl in H; [done|].
  destruct (Ascii.eqb a sep) eqn:Ea.
  - apply Ascii.eqb_eq in Ea. by simplify_eq.
  - destruct (cut sep s) as [[p q]|] eqn:Ec; [|done].
    simplify_eq. destruct (IH p v eq_refl) as [-> Hp].
    split; [done|]. simpl. by rewrite Ea, Hp.
Qed.

Lemma cut_app (sep : ascii) (k v : string) :
  cut sep k = None → cut sep (k +:+ String sep v) = Some (k, v).
Proof.
  induction k as [|a k IH]; intros H; simpl in *.
  - by rewrite Ascii.eqb_refl.
  - destruct (Ascii.eqb a sep); [done|].
    destruct (cut sep k) as [[p q]|]; [done|]. by rewrite IH.
Qed.

Lemma cut_None (sep : ascii) (s k v : string) :
  cut sep s = None → s ≠ k +:+ String sep v.
Proof.
  revert k. induction s as [|a s IH]; intros k H Heq; simpl in H.
  - by destruct k.
  - destruct (Ascii.eqb a sep) eqn:Ea; [done|].
    destruct (cut sep s) as [[p q]|] eqn:Ec; [done|].
    destruct k as [|a' k]; simpl in Heq; simplify_eq.
    + by rewrite Ascii.eqb_refl in Ea.
    + by eapply IH.
Qed.

(** ** The environment scan *)

Lemma rangeEnv_nil (key : string) : rangeEnv key [] = "postgres".
Proof. reflexivity. Qed.

Lemma rangeEnv_malformed (key entry : string) (rest : list string) :
  malformed entry → rangeEnv key (entry :: rest) = "postgres".
Proof. unfold malformed. intros H. simpl. by rewrite H. Qed.

Lemma rangeEnv_declared (key v : string) (rest : list string) :
  cut "="%char key = None →
  rangeEnv key ((key +:+ "=" +:+ v) :: rest) = v.
Proof.
  intros H. simpl. rewrite (cut_app _ _ _ H). simpl.
  by rewrite String.eqb_refl.
Qed.

Lemma rangeEnv_other (key entry : string) (rest : list string) :
  declaresOther key entry →
  rangeEnv key (entry :: rest) = rangeEnv key rest.
Proof.
  intros (k & v & Hc & Hne). simpl. rewrite Hc. simpl.
  destruct (String.eqb k key) eqn:E; [|done].
  by apply String.eqb_eq in E.
Qed.

Lemma rangeEnv_skip (key : string) (pre rest : list string) :
  Forall (declaresOther key) pre →
  rangeEnv key (pre ++ rest) = rangeEnv key rest.
Proof.
  induction 1 as [|e pre He _ IH]; [done|].
  rewrite <- app_comm_cons, rangeEnv_other; done.
Qed.

(** ** The archive decoder *)

Lemma untarLoop_archive (entries : list (Header * list byte))
    (fileMap : gmap string (list byte)) :
  untarLoop (archive entries) fileMap = inl (foldl store fileMap entries).
Proof.
  revert fileMap. induction entries as [|[h contents] rest IH];
    intros fileMap; simpl; [done|].
  unfold store at 2. simpl.
  destruct (Ascii.eqb (Typeflag h) TypeReg); apply IH.
Qed.

Lemma foldl_store_lookup_ne (entries : list (Header * list byte))
    (fileMap : gmap string (list byte)) (path : string) :
  Forall (λ e, Ascii.eqb (Typeflag e.1) TypeReg = true →
               TrimPrefix (Name e.1) "/" ≠ path) entries →
  foldl store fileMap entries !! path = fileMap !! path.
Proof.
  revert fileMap. induction entries as [|e rest IH]; intros fileMap H;
    simpl; [done|].
  inversion H as [|? ? He Hrest]; subst.
  rewrite IH by done. unfold store.
  destruct (Ascii.eqb (Typeflag e.1) TypeReg); [|done].
  by rewrite lookup_insert_ne by auto.
Qed.

Lemma substring_0_all (s : string) : substring 0 (String.length s) s = s.
Proof. induction s as [|a s IH]; simpl; [done | by rewrite IH]. Qed.

Lemma TrimPrefix_slash (s : string) : TrimPrefix (String "/" s) "/" = s.
Proof.
  unfold TrimPrefix. simpl. destruct s as [|a s]; simpl; [done|].
  by rewrite substring_0_all.
Qed.

(** ** Sequencing *)

Ltac run :=
  unfold mbind, M_bind, mret, M_ret, emit, call, lift; simpl.

Section MethodFacts.
Context {W : Type} (b : Backuper W).

Lemma bind_Ret {A B} (m : M W A) (f : A → M W B) (w : W) (a : A) :
  result (m w) = Ret a →
  (m ≫= f) w =
    {| trace := trace (m w) ++ trace (f a (world (m w)));
       world := world (f a (world (m w)));
       result := result (f a (world (m w))) |}.
Proof. intros H. run. by rewrite H. Qed.

Lemma bind_Panic {A B} (m : M W A) (f : A → M W B) (w : W) (p : panic) :
  result (m w) = Panic p →
  (m ≫= f) w =
    {| trace := trace (m w); world := world (m w); result := Panic p |}.
Proof. intros H. run. by rewrite H. Qed.

(** ** The database resolvers *)

Lemma getDatabaseName_label (c : Container) (w : W) (value : string) :
  Labels c !! "postgres-backup/db-name" = Some value →
  getDatabaseName b c w = {| trace := []; world := w; result := Ret value |}.
Proof. intros H. unfold getDatabaseName. by rewrite H. Qed.

Lemma getDatabaseName_inspect (c : Container) (w : W) :
  Labels c !! "postgres-backup/db-name" = None →
  getDatabaseName b c w =
    {| trace := []; world := (ContainerInspect b (ID c) w).2;
       result := resolved "POSTGRES_DB" (ContainerInspect b (ID c) w).1 |}.
Proof.
  intros H. unfold getDatabaseName. rewrite H. run.
  by destruct (ContainerInspect b (ID c) w).1 as [[env|]|e].
Qed.

Lemma getDatabaseUser_label (c : Container) (w : W) (value : string) :
  Labels c !! "postgres-backup/db-user" = Some value →
  getDatabaseUser b c w = {| trace := []; world := w; result := Ret value |}.
Proof. intros H. unfold getDatabaseUser. by rewrite H. Qed.

Lemma getDatabaseUser_inspect (c : Container) (w : W) :
  Labels c !! "postgres-backup/db-user" = None →
  getDatabaseUser b c w =
    {| trace := []; world := (ContainerInspect b (ID c) w).2;
       result := resolved "POSTGRES_USER" (ContainerInspect b (ID c) w).1 |}.
Proof.
  intros H. unfold getDatabaseUser. rewrite H. run.
  by destruct (ContainerInspect b (ID c) w).1 as [[env|]|e].
Qed.

Lemma getDatabaseName_quiet (c : Container) (w : W) :
  trace (getDatabaseName b c w) = [].
Proof.
  destruct (Labels c !! "postgres-backup/db-name") as [v|] eqn:E.
  - by rewrite (getDatabaseName_label _ _ _ E).
  - by rewrite (getDatabaseName_inspect _ _ E).
Qed.

Lemma getDatabaseUser_quiet (c : Container) (w : W) :
  trace (getDatabaseUser b c w) = [].
Proof.
  destruct (Labels c !! "postgres-backup/db-user") as [v|] eqn:E.
  - by rewrite (getDatabaseUser_label _ _ _ E).
  - by rewrite (getDatabaseUser_inspect _ _ E).
Qed.

Lemma resolved_returns (key : string) (details : option (list string) + error) :
  details ≠ inl None → ∃ v, resolved key details = Ret v.
Proof. destruct details as [[env|]|e]; simpl; eauto. done. Qed.

Lemma getDatabaseName_returns (c : Container) (w : W) :
  inspectsWithConfig b → ∃ v, result (getDatabaseName b c w) = Ret v.
Proof.
  intros Hcfg. destruct (Labels c !! "postgres-backup/db-name") as [v|] eqn:E.
  - rewrite (getDatabaseName_label _ _ _ E). eauto.
  - rewrite (getDatabaseName_inspect _ _ E). simpl.
    apply resolved_returns, Hcfg.
Qed.

Lemma getDatabaseUser_returns (c : Container) (w : W) :
  inspectsWithConfig b → ∃ v, result (getDatabaseUser b c w) = Ret v.
Proof.
  intros Hcfg. destruct (Labels c !! "postgres-backup/db-user") as [v|] eqn:E.
  - rewrite (getDatabaseUser_label _ _ _ E). eauto.
  - rewrite (getDatabaseUser_inspect _ _ E). simpl.
    apply resolved_returns, Hcfg.
Qed.

(** ** The wait loop *)

Lemma poller_rounds_suffice (rounds : nat) (execID : string) (t : N) (w : W) :
  (t < timeout_ms)%N →
  (timeout_ms ≤ t + poll_interval_ms * N.of_nat rounds)%N →
  is_Some (poller b rounds execID t w).
Proof.
  unfold timeout_ms, poll_interval_ms.
  revert t w. induction rounds as [|rounds IH]; intros t w Ht Hr.
  - lia.
  - simpl. destruct (ContainerExecInspect b execID w) as [[[i e] took] w'].
    unfold timeout_ms, poll_interval_ms.
    destruct (30000 <=? t + took)%N eqn:E1; [eauto|].
    destruct (negb (Running i)); [eauto|].
    destruct (bool_decide (e ≠ None)); [eauto|].
    destruct (30000 <=? t + took + 250)%N eqn:E2; [eauto|].
    apply N.leb_gt in E1, E2. apply IH; lia.
Qed.

Lemma poller_total (execID : string) (w : W) :
  poller b max_rounds execID 0%N w = Some (await b execID w).
Proof.
  unfold await.
  destruct (poller_rounds_suffice max_rounds execID 0%N w) as [r ->];
    [done | done | done].
Qed.

Lemma poller_more_rounds (rounds extra : nat) (execID : string) (t : N)
    (w : W) (r : Wait * W) :
  poller b rounds execID t w = Some r →
  poller b (rounds + extra) execID t w = Some r.
Proof.
  revert t w. induction rounds as [|rounds IH]; intros t w H; [done|].
  simpl in *. destruct (ContainerExecInspect b execID w) as [[[i e] took] w'].
  destruct (timeout_ms <=? t + took)%N; [done|].
  destruct (negb (Running i)); [done|].
  destruct (bool_decide (e ≠ None)); [done|].
  destruct (timeout_ms <=? t + took + poll_interval_ms)%N; [done|].
  by apply IH.
Qed.

Lemma poller_elapsed (rounds : nat) (execID : string) (t : N) (w : W)
    (r : Wait * W) :
  poller b rounds execID t w = Some r → (elapsed_ms r.1 ≤ timeout_ms)%N.
Proof.
  revert t w. induction rounds as [|rounds IH]; intros t w H; [done|].
  simpl in H. destruct (ContainerExecInspect b execID w) as [[[i e] took] w'].
  destruct (timeout_ms <=? t + took)%N eqn:E1; [by simplify_eq|].
  apply N.leb_gt in E1.
  destruct (negb (Running i)); [simplify_eq; simpl; lia|].
  destruct (bool_decide (e ≠ None)); [simplify_eq; simpl; lia|].
  destruct (timeout_ms <=? t + took + poll_interval_ms)%N; [by simplify_eq|].
  by eapply IH.
Qed.

Lemma neverFinished_next (execID : string) (w : W) :
  neverFinished b execID w →
  neverFinished b execID (ContainerExecInspect b execID w).2.
Proof. intros H n. apply (H (S n)). Qed.

Lemma poller_neverFinished (rounds : nat) (execID : string) (t : N) (w : W)
    (r : Wait * W) :
  neverFinished b execID w →
  poller b rounds execID t w = Some r → r.1 = TimedOut.
Proof.
  revert t w. induction rounds as [|rounds IH]; intros t w Hn H; [done|].
  pose proof (Hn 0) as H0. pose proof (neverFinished_next _ _ Hn) as Hn'.
  simpl in *. destruct (ContainerExecInspect b execID w) as [[[i e] took] w'].
  simpl in *. simplify_eq. simpl in H.
  destruct (timeout_ms <=? t + took)%N; [by simplify_eq|].
  destruct (timeout_ms <=? t + took + poll_interval_ms)%N; [by simplify_eq|].
  by eapply IH.
Qed.

Lemma poller_conflates (rounds : nat) (execID : string) (t : N) (w : W) :
  poller (pollErrorsAsFinished b) rounds execID t w
  = poller b rounds execID t w.
Proof.
  revert t w. induction rounds as [|rounds IH]; intros t w; [done|].
  simpl. destruct (ContainerExecInspect b execID w) as [[[i e] took] w'].
  destruct e as [e|]; simpl.
  - destruct (timeout_ms <=? t + took)%N; [done|].
    by destruct (negb (Running i)).
  - destruct (timeout_ms <=? t + took)%N; [done|].
    destruct (negb (Running i)); [done|].
    destruct (timeout_ms <=? t + took + poll_interval_ms)%N; [done|].
    apply IH.
Qed.

Lemma waitForExecToEnd_conflates (execID : string) (w : W) :
  waitForExecToEnd (pollErrorsAsFinished b) execID w
  = waitForExecToEnd b execID w.
Proof.
  unfold waitForExecToEnd, await. by rewrite poller_conflates.
Qed.

Lemma waitForExecToEnd_returns (execID : string) (w : W) :
  result (waitForExecToEnd b execID w) = Ret tt.
Proof. unfold waitForExecToEnd. by destruct (await b execID w) as [[] ?]. Qed.

End MethodFacts.

(** ** The extractor, the uploader and the orchestrator *)

Local Arguments pg_dump_cmd : simpl never.
Local Arguments objectKey : simpl never.
Local Arguments RFC3339 : simpl never.
Local Arguments UploadDump : simpl never.
Local Arguments DumpData : simpl never.
Local Arguments waitForExecToEnd : simpl never.
Local Arguments getDatabaseName : simpl never.
Local Arguments getDatabaseUser : simpl never.
Local Arguments BackupContainer : simpl never.

Section PipelineFacts.
Context {W : Type} (b : Backuper W).

Lemma waitForExecToEnd_trace (execID : string) (w : W) :
  trace (waitForExecToEnd b execID w) = [] ∨
  trace (waitForExecToEnd b execID w)
  = [EvLog ["Timed out waiting for exec"; execID]].
Proof.
  unfold waitForExecToEnd. destruct (await b execID w) as [[] ?]; auto.
Qed.

Lemma DumpData_create_fails (c : Container) (dbName user : string) (w : W)
    (e : error) :
  (ContainerExecCreate b (ID c) (pg_dump_cmd user dbName) w).1 = inr e →
  DumpData b c dbName user w =
    {| trace := [];
       world := (ContainerExecCreate b (ID c) (pg_dump_cmd user dbName) w).2;
       result := Ret (inr e) |}.
Proof. intros H. unfold DumpData. run. by rewrite H. Qed.

Lemma DumpData_start_fails (c : Container) (dbName user : string) (w : W)
    (execID : string) (e : error) :
  let created := ContainerExecCreate b (ID c) (pg_dump_cmd user dbName) w in
  created.1 = inl execID →
  (ContainerExecStart b execID created.2).1 = Some e →
  DumpData b c dbName user w =
    {| trace := []; world := (ContainerExecStart b execID created.2).2;
       result := Ret (inr e) |}.
Proof.
  intros created H1 H2. subst created. unfold DumpData. run.
  by rewrite H1, H2.
Qed.

Lemma DumpData_waits (c : Container) (dbName user : string) (w : W)
    (execID : string) :
  let created := ContainerExecCreate b (ID c) (pg_dump_cmd user dbName) w in
  let begun := ContainerExecStart b execID created.2 in
  let waited := waitForExecToEnd b execID begun.2 in
  let copied := CopyFromContainer b (ID c) "/tmp/dump.sql" (world waited) in
  created.1 = inl execID →
  begun.1 = None →
  DumpData b c dbName user w =
    {| trace := trace waited; world := copied.2; result := Ret copied.1 |}.
Proof.
  intros created begun waited copied H1 H2.
  subst created begun waited copied. unfold DumpData. run.
  rewrite H1. simpl. rewrite H2. simpl. rewrite waitForExecToEnd_returns.
  destruct (CopyFromContainer b _ _ _).1; simpl; by rewrite app_nil_r.
Qed.

Lemma DumpData_quiet (c : Container) (dbName user : string) (w : W) :
  (∃ r, result (DumpData b c dbName user w) = Ret r) ∧
  starts (trace (DumpData b c dbName user w)) = [] ∧
  puts (trace (DumpData b c dbName user w)) = [].
Proof.
  destruct (ContainerExecCreate b (ID c) (pg_dump_cmd user dbName) w).1
    as [execID|e] eqn:E1.
  - destruct (ContainerExecStart b execID
               (ContainerExecCreate b (ID c) (pg_dump_cmd user dbName) w).2).1
      as [e|] eqn:E2.
    + rewrite (DumpData_start_fails _ _ _ _ _ _ E1 E2). simpl. eauto.
    + rewrite (DumpData_waits _ _ _ _ _ E1 E2). simpl.
      split; [eauto|].
      by destruct (waitForExecToEnd_trace execID
        (ContainerExecStart b execID
           (ContainerExecCreate b (ID c) (pg_dump_cmd user dbName) w).2).2)
        as [-> | ->].
  - rewrite (DumpData_create_fails _ _ _ _ _ E1). simpl. eauto.
Qed.

Lemma DumpData_conflates (c : Container) (dbName user : string) (w : W) :
  DumpData (pollErrorsAsFinished b) c dbName user w
  = DumpData b c dbName user w.
Proof.
  unfold DumpData. run.
  destruct (ContainerExecCreate b (ID c) (pg_dump_cmd user dbName) w).1;
    [|done].
  destruct (ContainerExecStart b _ _).1; [done|].
  by rewrite waitForExecToEnd_conflates.
Qed.

(** What the uploader does, spelled out. *)
Lemma UploadDump_run (appName : string) (reader : TarReader) (w : W) :
  let now := Now b w in
  let key := objectKey appName (RFC3339 now.1) in
  let payload := default [] (decoded (UntarReaderToMem reader) !! "dump.sql") in
  let stored := PutObject b (bucket b) key payload now.2 in
  UploadDump b appName reader w =
    {| trace :=
         EvPut (bucket b) key payload ::
         match stored.1.2 with
         | Some e => [EvLog ["Failed to upload backup file for"; appName;
                             ":"; e]]
         | None => []
         end ++
         [EvLog ["Uploaded backup file"; Location stored.1.1]; EvClose];
       world := stored.2;
       result := Ret tt |}.
Proof.
  intros now key payload stored. unfold UploadDump. run.
  fold now. fold key. fold payload. fold stored.
  by destruct stored as [[info [e|]] w'].
Qed.

Local Opaque UploadDump getDatabaseName getDatabaseUser.

Lemma DumpData_trace (c : Container) (dbName user : string) (w : W) :
  trace (DumpData b c dbName user w) = [] ∨
  ∃ execID, trace (DumpData b c dbName user w)
            = [EvLog ["Timed out waiting for exec"; execID]].
Proof.
  destruct (ContainerExecCreate b (ID c) (pg_dump_cmd user dbName) w).1
    as [execID|e] eqn:E1.
  - destruct (ContainerExecStart b execID
               (ContainerExecCreate b (ID c) (pg_dump_cmd user dbName) w).2).1
      as [e|] eqn:E2.
    + rewrite (DumpData_start_fails _ _ _ _ _ _ E1 E2). by left.
    + rewrite (DumpData_waits _ _ _ _ _ E1 E2). simpl.
      destruct (waitForExecToEnd_trace execID
        (ContainerExecStart b execID
           (ContainerExecCreate b (ID c) (pg_dump_cmd user dbName) w).2).2)
        as [-> | ->]; eauto.
  - rewrite (DumpData_create_fails _ _ _ _ _ E1). by left.
Qed.

Local Opaque DumpData.

Lemma dumpStage_trace (c : Container) (w : W) :
  trace (dumpStage b c w) = [] ∨
  ∃ execID, trace (dumpStage b c w)
            = [EvLog ["Timed out waiting for exec"; execID]].
Proof.
  unfold dumpStage. pose proof (getDatabaseName_quiet b c w) as Ht1.
  destruct (result (getDatabaseName b c w)) as [db|p] eqn:Hr1.
  - rewrite (bind_Ret _ _ _ _ Hr1), Ht1. simpl.
    pose proof (getDatabaseUser_quiet b c (world (getDatabaseName b c w)))
      as Ht2.
    destruct (result (getDatabaseUser b c (world (getDatabaseName b c w))))
      as [user|p] eqn:Hr2.
    + rewrite (bind_Ret _ _ _ _ Hr2), Ht2. simpl. apply DumpData_trace.
    + rewrite (bind_Panic _ _ _ _ Hr2), Ht2. by left.
  - rewrite (bind_Panic _ _ _ _ Hr1), Ht1. by left.
Qed.

Lemma dumpStage_quiet (c : Container) (w : W) :
  starts (trace (dumpStage b c w)) = [] ∧
  puts (trace (dumpStage b c w)) = [].
Proof. by destruct (dumpStage_trace c w) as [-> | [? ->]]. Qed.

Lemma dumpStage_returns (c : Container) (w : W) :
  inspectsWithConfig b → ∃ r, result (dumpStage b c w) = Ret r.
Proof.
  intros Hcfg. unfold dumpStage.
  destruct (getDatabaseName_returns b c w Hcfg) as [db Hr1].
  rewrite (bind_Ret _ _ _ _ Hr1). simpl.
  destruct (getDatabaseUser_returns b c (world (getDatabaseName b c w)) Hcfg)
    as [user Hr2].
  rewrite (bind_Ret _ _ _ _ Hr2). simpl.
  apply DumpData_quiet.
Qed.

Lemma resolved_panic (key : string) (details : option (list string) + error)
    (p : panic) :
  resolved key details = Panic p → p = NilPointerDereference.
Proof. destruct details as [[env|]|e]; simpl; congruence. Qed.

Lemma dumpStage_panic (c : Container) (w : W) (p : panic) :
  result (dumpStage b c w) = Panic p → p = NilPointerDereference.
Proof.
  unfold dumpStage.
  destruct (result (getDatabaseName b c w)) as [db|p1] eqn:Hr1.
  - rewrite (bind_Ret _ _ _ _ Hr1). simpl.
    destruct (result (getDatabaseUser b c (world (getDatabaseName b c w))))
      as [user|p2] eqn:Hr2.
    + rewrite (bind_Ret _ _ _ _ Hr2). simpl.
      destruct (DumpData_quiet c db user
                  (world (getDatabaseUser b c
                            (world (getDatabaseName b c w))))) as [[r Hr] _].
      rewrite Hr. done.
    + rewrite (bind_Panic _ _ _ _ Hr2). simpl. intros ?. simplify_eq.
      revert Hr2.
      destruct (Labels c !! "postgres-backup/db-user") as [v|] eqn:E.
      * by rewrite (getDatabaseUser_label _ _ _ _ E).
      * rewrite (getDatabaseUser_inspect _ _ _ E). apply resolved_panic.
  - rewrite (bind_Panic _ _ _ _ Hr1). simpl. intros ?. simplify_eq.
    revert Hr1.
    destruct (Labels c !! "postgres-backup/db-name") as [v|] eqn:E.
    + by rewrite (getDatabaseName_label _ _ _ _ E).
    + rewrite (getDatabaseName_inspect _ _ _ E). apply resolved_panic.
Qed.

(** What one container's backup does, by the outcome of the dump stage. *)
Lemma BackupContainer_run (c : Container) (w : W) :
  12 ≤ String.length (ID c) →
  ∃ appName, getAppName c = Ret appName ∧
  let staged := dumpStage b c w in
  match result staged with
  | Ret (inr err) =>
      BackupContainer b c w =
        {| trace :=
             EvLog ["Starting backup for container"; shortID c] ::
             trace staged ++
             [EvLog ["Failed to dump data for"; shortID c; ":"; err]];
           world := world staged;
           result := Ret tt |}
  | Ret (inl reader) =>
      let uploaded := UploadDump b appName reader (world staged) in
      BackupContainer b c w =
        {| trace :=
             EvLog ["Starting backup for container"; shortID c] ::
             trace staged ++ trace uploaded ++
             [EvLog ["Finished backup for container"; shortID c]];
           world := world uploaded;
           result := Ret tt |}
  | Panic p =>
      BackupContainer b c w =
        {| trace :=
             EvLog ["Starting backup for container"; shortID c] ::
             trace staged;
           world := world staged;
           result := Panic p |}
  end.
Proof.
  intros Hlen.
  assert (∃ appName, getAppName c = Ret appName) as [appName Happ].
  { unfold getAppName. destruct (Labels c !! _); [eauto|].
    destruct (Names c); [|eauto]. rewrite slice_to_Ret by done. eauto. }
  exists appName. split; [done|]. cbv zeta.
  unfold BackupContainer, dumpStage.
  rewrite (slice_to_Ret _ _ Hlen), Happ. fold (shortID c). run.
  destruct (getDatabaseName b c w) as [tr1 w1 [db|p1]]; simpl; [|done].
  destruct (getDatabaseUser b c w1) as [tr2 w2 [user|p2]]; simpl; [|done].
  destruct (DumpData b c db user w2) as [tr3 w3 [[reader|err]|p3]]; simpl.
  - rewrite UploadDump_run. simpl. by rewrite <- !app_assoc.
  - by rewrite <- !app_assoc.
  - done.
Qed.

Lemma BackupContainer_no_slice_panic (c : Container) (w : W) (hi len : nat) :
  12 ≤ String.length (ID c) →
  result (BackupContainer b c w) ≠ Panic (SliceBoundsOutOfRange hi len).
Proof.
  intros Hlen H.
  destruct (BackupContainer_run c w Hlen) as (appName & _ & Hrun).
  cbv zeta in Hrun.
  destruct (result (dumpStage b c w)) as [[reader|err]|p] eqn:Hr;
    rewrite Hrun in H; simpl in H; [done | done |].
  apply dumpStage_panic in Hr. congruence.
Qed.

Local Transparent DumpData UploadDump getDatabaseName getDatabaseUser.

End PipelineFacts.

Section ScanFacts.
Context {W : Type} (b : Backuper W).

Local Opaque UploadDump dumpStage.

Lemma starts_app (tr1 tr2 : list Event) :
  starts (tr1 ++ tr2) = starts tr1 ++ starts tr2.
Proof. apply omap_app. Qed.

Lemma puts_app (tr1 tr2 : list Event) :
  puts (tr1 ++ tr2) = puts tr1 ++ puts tr2.
Proof. apply omap_app. Qed.

Lemma UploadDump_starts (appName : string) (reader : TarReader) (w : W) :
  starts (trace (UploadDump b appName reader w)) = [].
Proof.
  rewrite UploadDump_run. cbv zeta. simpl.
  by destruct (PutObject b _ _ _ _).1.2.
Qed.

Lemma UploadDump_puts (appName : string) (reader : TarReader) (w : W) :
  puts (trace (UploadDump b appName reader w)) =
    [(bucket b, objectKey appName (RFC3339 (Now b w).1),
      default [] (decoded (UntarReaderToMem reader) !! "dump.sql"))].
Proof.
  rewrite UploadDump_run. cbv zeta. simpl.
  by destruct (PutObject b _ _ _ _).1.2.
Qed.

Lemma BackupContainer_attempt (c : Container) (w : W) :
  inspectsWithConfig b →
  12 ≤ String.length (ID c) →
  result (BackupContainer b c w) = Ret tt ∧
  starts (trace (BackupContainer b c w)) = [shortID c].
Proof.
  intros Hcfg Hlen.
  destruct (BackupContainer_run b c w Hlen) as (appName & _ & Hrun).
  destruct (dumpStage_returns b c w Hcfg) as [r Hr].
  destruct (dumpStage_quiet b c w) as [Hs _].
  cbv zeta in Hrun. rewrite Hr in Hrun. destruct r as [reader|err];
    rewrite Hrun; simpl; (split; [done|]);
    change (?e :: ?l) with ([e] ++ l);
    rewrite !starts_app, ?Hs, ?UploadDump_starts; done.
Qed.

Lemma BackupContainer_short (c : Container) (w : W) :
  String.length (ID c) < 12 →
  BackupContainer b c w =
    {| trace := []; world := w;
       result := Panic (SliceBoundsOutOfRange 12 (String.length (ID c))) |}.
Proof. intros H. unfold BackupContainer. run. by rewrite slice_to_Panic. Qed.

Lemma rangeContainers_attempts (cs : list Container) (w : W) :
  inspectsWithConfig b →
  Forall (λ c, 12 ≤ String.length (ID c)) cs →
  result (rangeContainers b cs w) = Ret tt ∧
  starts (trace (rangeContainers b cs w)) = map shortID cs.
Proof.
  intros Hcfg. revert w. induction cs as [|c cs IH]; intros w H; [done|].
  inversion H as [|? ? Hc Hcs]; subst.
  destruct (BackupContainer_attempt c w Hcfg Hc) as [Hr Hs].
  simpl. rewrite (bind_Ret _ _ _ _ Hr). simpl.
  destruct (IH (world (BackupContainer b c w)) Hcs) as [Hr' Hs'].
  by rewrite starts_app, Hs, Hs'.
Qed.

Lemma Scan_run (w : W) :
  let listed := ContainerList b scanFilters w in
  let ranged := rangeContainers b listed.1.1 listed.2 in
  result ranged = Ret tt →
  Scan b w =
    {| trace :=
         EvLog ["Start containers scan"] ::
         match listed.1.2 with
         | Some e => [EvStdout ["Failed to list containers:"; e]]
         | None => []
         end ++ trace ranged ++ [EvLog ["End containers scan"]];
       world := world ranged;
       result := Ret tt |}.
Proof.
  intros listed ranged Hr. subst ranged listed. unfold Scan. run.
  destruct (ContainerList b scanFilters w) as [[cs [e|]] w1]; simpl in *;
    by rewrite Hr.
Qed.

Local Transparent UploadDump dumpStage.

End ScanFacts.

(** * The claims *)

(** ** Application name (C4, C10) *)

Lemma getAppName_returns (c : Container) :
  12 ≤ String.length (ID c) → ∃ name, getAppName c = Ret name.
Proof.
  intros Hlen. unfold getAppName. destruct (Labels c !! _); [eauto|].
  destruct (Names c); [|eauto]. rewrite slice_to_Ret by done. eauto.
Qed.

(** C4, as stated, fails: for a container with a three-byte identifier,
    no name and no override label, application-name resolution panics
    instead of returning, in the current sources and in main.go alike. *)
Lemma getAppName_not_total :
  let c := {| ID := "abc"; Names := []; Labels := ∅ |} in
  getAppName c = Panic (SliceBoundsOutOfRange 12 3) ∧
  MainGo.getAppName c = Panic (SliceBoundsOutOfRange 12 3) ∧
  ¬ ∃ name, getAppName c = Ret name.
Proof.
  split; [done|]. split; [done|]. intros [name H]. discriminate H.
Qed.

(** C4, amended: application-name resolution returns the override label
    value if present, else the first assigned name if there is one, both
    whatever the identifier; else, for an identifier of at least 12 bytes,
    its first 12 bytes.  So it returns for every container whose
    identifier has at least 12 bytes.  For id abcdef0123456789, no names
    and no override label the result is abcdef012345.  The revision in
    main.go does the same with the empty label key. *)
Theorem getAppName_priority (c : Container) :
  (∀ value, Labels c !! "postgres-backup/app-name" = Some value →
            getAppName c = Ret value) ∧
  (∀ name0 names, Labels c !! "postgres-backup/app-name" = None →
                  Names c = name0 :: names → getAppName c = Ret name0) ∧
  (Labels c !! "postgres-backup/app-name" = None → Names c = [] →
   12 ≤ String.length (ID c) →
   ∃ short rest, getAppName c = Ret short ∧
                 ID c = short +:+ rest ∧ String.length short = 12) ∧
  (12 ≤ String.length (ID c) → ∃ name, getAppName c = Ret name) ∧
  getAppName {| ID := "abcdef0123456789"; Names := []; Labels := ∅ |}
    = Ret "abcdef012345" ∧
  (∀ value, Labels c !! "" = Some value → MainGo.getAppName c = Ret value) ∧
  (∀ name0 names, Labels c !! "" = None → Names c = name0 :: names →
                  MainGo.getAppName c = Ret name0) ∧
  (Labels c !! "" = None → Names c = [] → 12 ≤ String.length (ID c) →
   MainGo.getAppName c = Ret (substring 0 12 (ID c))).
Proof.
  unfold getAppName, MainGo.getAppName. repeat split.
  - by intros value ->.
  - by intros name0 names -> ->.
  - intros -> -> Hlen. rewrite slice_to_Ret by done.
    destruct (substring_0_prefix 12 (ID c) Hlen) as [rest Hrest].
    exists (substring 0 12 (ID c)), rest.
    by rewrite substring_0_length.
  - apply getAppName_returns.
  - by intros value ->.
  - by intros name0 names -> ->.
  - intros -> -> Hlen. by rewrite slice_to_Ret.
Qed.

(** The three priorities of C4 on a container with a 16-byte identifier. *)
Lemma getAppName_priority_witness :
  getAppName {| ID := "0123456789abcdef";
                Names := ["/shop-db"; "/alias"];
                Labels := {[ "postgres-backup/app-name" := "shop" ]} |}
    = Ret "shop" ∧
  getAppName {| ID := "0123456789abcdef";
                Names := ["/shop-db"; "/alias"]; Labels := ∅ |}
    = Ret "/shop-db" ∧
  (∃ short rest,
     getAppName {| ID := "0123456789abcdef"; Names := []; Labels := ∅ |}
       = Ret short ∧
     "0123456789abcdef" = short +:+ rest ∧ String.length short = 12) ∧
  (∃ name, getAppName {| ID := "0123456789abcdef"; Names := [];
                         Labels := ∅ |} = Ret name) ∧
  MainGo.getAppName {| ID := "0123456789abcdef"; Names := ["/shop-db"];
                       Labels := {[ "" := "shop" ]} |} = Ret "shop" ∧
  MainGo.getAppName {| ID := "0123456789abcdef"; Names := ["/shop-db"];
                       Labels := ∅ |} = Ret "/shop-db" ∧
  MainGo.getAppName {| ID := "0123456789abcdef"; Names := [];
                       Labels := ∅ |} = Ret "0123456789ab".
Proof.
  split; [|split; [|split; [|split; [|split; [|split]]]]].
  - apply (getAppName_priority {| ID := "0123456789abcdef";
                Names := ["/shop-db"; "/alias"];
                Labels := {[ "postgres-backup/app-name" := "shop" ]} |}).
    reflexivity.
  - eapply (getAppName_priority {| ID := "0123456789abcdef";
                Names := ["/shop-db"; "/alias"]; Labels := ∅ |});
      reflexivity.
  - apply (getAppName_priority
             {| ID := "0123456789abcdef"; Names := []; Labels := ∅ |});
      [reflexivity | reflexivity | simpl; lia].
  - apply (getAppName_priority
             {| ID := "0123456789abcdef"; Names := []; Labels := ∅ |}).
    simpl; lia.
  - apply (getAppName_priority {| ID := "0123456789abcdef";
             Names := ["/shop-db"]; Labels := {[ "" := "shop" ]} |}).
    reflexivity.
  - eapply (getAppName_priority {| ID := "0123456789abcdef";
             Names := ["/shop-db"]; Labels := ∅ |}); reflexivity.
  - apply (getAppName_priority {| ID := "0123456789abcdef";
             Names := []; Labels := ∅ |});
      [reflexivity | reflexivity | simpl; lia].
Defined.

(** C10: the identifier is sliced to its first 12 bytes by the fallback
    of [getAppName] and by the first log line of [BackupContainer].  With
    an identifier of at least 12 bytes [getAppName] returns and no slice
    of [BackupContainer] panics, so that [BackupContainer] returns
    whenever the inspections carry a [Config]; with a shorter identifier
    [BackupContainer] panics before doing anything, and so does
    [getAppName] once it reaches its fallback (no override label, no
    name). *)
Theorem short_identifier_panics {W : Type} (b : Backuper W) (c : Container)
    (w : W) :
  (12 ≤ String.length (ID c) →
   (∃ name, getAppName c = Ret name) ∧
   (∀ hi len,
      result (BackupContainer b c w) ≠ Panic (SliceBoundsOutOfRange hi len)) ∧
   (inspectsWithConfig b → result (BackupContainer b c w) = Ret tt)) ∧
  (String.length (ID c) < 12 →
   BackupContainer b c w =
     {| trace := []; world := w;
        result := Panic (SliceBoundsOutOfRange 12 (String.length (ID c))) |}
   ∧
   (Labels c !! "postgres-backup/app-name" = None → Names c = [] →
    getAppName c = Panic (SliceBoundsOutOfRange 12 (String.length (ID c))))).
Proof.
  split.
  - intros Hlen. split; [|split].
    + by apply getAppName_returns.
    + intros hi len. by apply BackupContainer_no_slice_panic.
    + intros Hcfg. by apply BackupContainer_attempt.
  - intros Hlen. split.
    + by apply BackupContainer_short.
    + intros Hl Hn. unfold getAppName. rewrite Hl, Hn.
      by apply slice_to_Panic.
Qed.

(** C10 on a regular container and on one with a three-byte identifier. *)
Lemma short_identifier_panics_witness :
  ((∃ name, getAppName Demo.first = Ret name) ∧
   result (BackupContainer Demo.secondRefuses Demo.first tt) = Ret tt) ∧
  (BackupContainer Demo.stubListed Demo.stub tt =
     {| trace := []; world := tt;
        result := Panic (SliceBoundsOutOfRange 12 3) |} ∧
   getAppName {| ID := "abc"; Names := []; Labels := ∅ |}
     = Panic (SliceBoundsOutOfRange 12 3)).
Proof.
  split.
  - destruct (proj1 (short_identifier_panics Demo.secondRefuses Demo.first
                       tt)) as (Hname & _ & Hret).
    + simpl; lia.
    + split; [exact Hname|]. apply Hret. intros id w. discriminate.
  - split.
    + apply (short_identifier_panics Demo.stubListed Demo.stub tt).
      simpl; lia.
    + apply (short_identifier_panics Demo.stubListed
               {| ID := "abc"; Names := []; Labels := ∅ |} tt);
        [simpl; lia | reflexivity | reflexivity].
Defined.

(** ** Database name and user (C2) *)

Lemma rangeEnv_first_declaration (key v : string) (pre post : list string) :
  cut "="%char key = None →
  Forall (declaresOther key) pre →
  rangeEnv key (pre ++ (key +:+ "=" +:+ v) :: post) = v.
Proof.
  intros Hk Hpre. rewrite rangeEnv_skip by done. by apply rangeEnv_declared.
Qed.

Lemma rangeEnv_undeclared (key : string) (env : list string) :
  Forall (declaresOther key) env → rangeEnv key env = "postgres".
Proof.
  intros H. rewrite <- (app_nil_r env). by rewrite rangeEnv_skip.
Qed.

Lemma rangeEnv_first_malformed (key bad : string) (pre post : list string) :
  Forall (declaresOther key) pre → malformed bad →
  rangeEnv key (pre ++ bad :: post) = "postgres".
Proof.
  intros Hpre Hbad. rewrite rangeEnv_skip by done.
  by apply rangeEnv_malformed.
Qed.

Lemma resolves_intro {W : Type} (b : Backuper W) (label key : string)
    (resolve : Container → M W string) :
  cut "="%char key = None →
  (∀ c w value, Labels c !! label = Some value →
     resolve c w = {| trace := []; world := w; result := Ret value |}) →
  (∀ c w, Labels c !! label = None →
     resolve c w =
       {| trace := []; world := (ContainerInspect b (ID c) w).2;
          result := resolved key (ContainerInspect b (ID c) w).1 |}) →
  resolves b label key resolve.
Proof.
  intros Hkey Hlabel Hinspect c w. split; [|split].
  - destruct (Labels c !! label) as [value|] eqn:Hl.
    + by rewrite (Hlabel c w value Hl).
    + by rewrite (Hinspect c w Hl).
  - intros value Hl. by rewrite (Hlabel c w value Hl).
  - intros Hl. rewrite (Hinspect c w Hl). simpl. split; [|split].
    + by intros e ->.
    + split.
      * intros ->. by eexists.
      * intros [p Hp].
        by destruct (ContainerInspect b (ID c) w).1 as [[env|]|e].
    + intros env ->. simpl. split; [eauto|]. split; [|split].
      * intros pre v post -> Hpre.
        f_equal. by apply (rangeEnv_first_declaration key v pre post).
      * intros Henv. f_equal. by apply rangeEnv_undeclared.
      * intros pre bad post -> Hpre Hbad.
        f_equal. by apply rangeEnv_first_malformed.
Qed.

(** C2, as stated, fails both ways: with a malformed entry before the
    declarations the declared POSTGRES_DB and POSTGRES_USER are not
    returned, and with a malformed entry after them the default is not
    returned. *)
Lemma malformed_entry_order_matters :
  result (getDatabaseName Demo.malformedFirst Demo.first tt) = Ret "postgres" ∧
  result (getDatabaseUser Demo.malformedFirst Demo.first tt) = Ret "postgres" ∧
  result (getDatabaseName Demo.malformedLast Demo.first tt) = Ret "shop" ∧
  result (getDatabaseUser Demo.malformedLast Demo.first tt) = Ret "admin".
Proof. by repeat split. Qed.

(** C2, amended: database-name and database-user resolution each return
    the override label value when the label is present; otherwise they
    read the container's environment entries in order and return the
    value of the first POSTGRES_DB resp. POSTGRES_USER entry, provided
    every entry before it is well-formed; otherwise the default
    "postgres": when the variable is not declared, when an entry without
    '=' is met before any declaration of the variable, and when the
    container inspection fails.  Neither an inspection failure nor a
    malformed entry makes resolution panic: it panics exactly when the
    label is absent and the inspection succeeds without a [Config]. *)
Theorem database_resolution {W : Type} (b : Backuper W) :
  resolves b "postgres-backup/db-name" "POSTGRES_DB" (getDatabaseName b) ∧
  resolves b "postgres-backup/db-user" "POSTGRES_USER" (getDatabaseUser b).
Proof.
  split; apply resolves_intro; try done.
  - apply getDatabaseName_label.
  - apply getDatabaseName_inspect.
  - apply getDatabaseUser_label.
  - apply getDatabaseUser_inspect.
Qed.

(** C2 on a container with an override label, on a failed inspection,
    on a declared variable and on a malformed first entry. *)
Lemma database_resolution_witness :
  result (getDatabaseName Demo.secondRefuses
            {| ID := "0123456789abcdef"; Names := [];
               Labels := {[ "postgres-backup/db-name" := "orders" ]} |} tt)
    = Ret "orders" ∧
  result (getDatabaseName Demo.inspectFails Demo.first tt) = Ret "postgres" ∧
  result (getDatabaseName Demo.secondRefuses Demo.first tt) = Ret "shop" ∧
  result (getDatabaseUser Demo.malformedFirst Demo.first tt) = Ret "postgres" ∧
  (∃ p, result (getDatabaseName Demo.nilConfig Demo.first tt) = Panic p).
Proof.
  split; [|split; [|split; [|split]]].
  - destruct (proj1 (database_resolution Demo.secondRefuses)
                {| ID := "0123456789abcdef"; Names := [];
                   Labels := {[ "postgres-backup/db-name" := "orders" ]} |}
                tt) as (_ & Hlabel & _).
    apply Hlabel. reflexivity.
  - destruct (proj1 (database_resolution Demo.inspectFails) Demo.first tt)
      as (_ & _ & Henv).
    destruct (Henv eq_refl) as [Hfail _].
    apply (Hfail "No such container"). reflexivity.
  - destruct (proj1 (database_resolution Demo.secondRefuses) Demo.first tt)
      as (_ & _ & Henv).
    destruct (Henv eq_refl) as (_ & _ & Hok).
    destruct (Hok ["PATH=/usr/bin"; "POSTGRES_USER=admin"; "POSTGRES_DB=shop"]
                eq_refl) as (_ & Hdecl & _ & _).
    apply (Hdecl ["PATH=/usr/bin"; "POSTGRES_USER=admin"] "shop" []);
      [reflexivity|].
    repeat constructor.
    + exists "PATH", "/usr/bin". split; [reflexivity | discriminate].
    + exists "POSTGRES_USER", "admin". split; [reflexivity | discriminate].
  - destruct (proj2 (database_resolution Demo.malformedFirst) Demo.first tt)
      as (_ & _ & Henv).
    destruct (Henv eq_refl) as (_ & _ & Hok).
    destruct (Hok ["garbage"; "POSTGRES_DB=shop"; "POSTGRES_USER=admin"]
                eq_refl) as (_ & _ & _ & Hbad).
    apply (Hbad [] "garbage" ["POSTGRES_DB=shop"; "POSTGRES_USER=admin"]);
      [reflexivity | constructor | reflexivity].
  - destruct (proj1 (database_resolution Demo.nilConfig) Demo.first tt)
      as (_ & _ & Henv).
    destruct (Henv eq_refl) as (_ & Hnil & _).
    apply Hnil. reflexivity.
Defined.

(** ** The archive decoder (C3) *)

Lemma foldl_store_lookup_later (entries : list (Header * list byte))
    (fileMap : gmap string (list byte)) (path : string) :
  Forall (λ e, Typeflag e.1 = TypeReg → TrimPrefix (Name e.1) "/" ≠ path)
         entries →
  foldl store fileMap entries !! path = fileMap !! path.
Proof.
  intros H. apply foldl_store_lookup_ne.
  eapply Forall_impl; [exact H|]. intros e He Hreg. apply He.
  by apply Ascii.eqb_eq.
Qed.

Lemma foldl_store_lookup_Some (entries : list (Header * list byte))
    (fileMap : gmap string (list byte)) (path : string)
    (contents : list byte) :
  foldl store fileMap entries !! path = Some contents →
  fileMap !! path = Some contents ∨
  ∃ h, (h, contents) ∈ entries ∧ Typeflag h = TypeReg ∧
       path = TrimPrefix (Name h) "/".
Proof.
  revert fileMap. induction entries as [|[h body] rest IH];
    intros fileMap H; simpl in H; [by left|].
  destruct (IH _ H) as [Hhere | (h' & Hin & Hreg & Hpath)].
  - unfold store in Hhere. simpl in Hhere.
    destruct (Ascii.eqb (Typeflag h) TypeReg) eqn:E; [|by left].
    apply Ascii.eqb_eq in E.
    destruct (decide (TrimPrefix (Name h) "/" = path)) as [<-|Hne].
    + rewrite lookup_insert_eq in Hhere. simplify_eq.
      right. exists h. split; [apply list_elem_of_here | done].
    + rewrite lookup_insert_ne in Hhere by done. by left.
  - right. exists h'. split; [by apply list_elem_of_further | done].
Qed.

(** C3: decoding the archive of the single regular file dump.sql with
    contents [b] yields exactly the map from dump.sql to [b].  More
    generally, on a well-formed stream the decoder returns, without error,
    the map obtained by assigning to each regular entry's name (one
    leading '/' stripped) its full contents, in stream order, skipping
    the other entries: an entry's name maps to its contents unless a
    later regular entry bears the same stripped name, and every key of
    the map stems from a regular entry. *)
Theorem untar_roundtrip :
  (∀ contents : list byte,
     UntarReaderToMem (tarOfFiles [("dump.sql", contents)])
     = inl {[ "dump.sql" := contents ]}) ∧
  (∀ entries, UntarReaderToMem (archive entries)
              = inl (foldl store ∅ entries)) ∧
  (∀ pre h contents post,
     Typeflag h = TypeReg →
     Forall (λ e, Typeflag e.1 = TypeReg →
                  TrimPrefix (Name e.1) "/" ≠ TrimPrefix (Name h) "/") post →
     ∃ mem, UntarReaderToMem (archive (pre ++ (h, contents) :: post))
            = inl mem ∧
            mem !! TrimPrefix (Name h) "/" = Some contents) ∧
  (∀ entries mem path contents,
     UntarReaderToMem (archive entries) = inl mem →
     mem !! path = Some contents →
     ∃ h, (h, contents) ∈ entries ∧ Typeflag h = TypeReg ∧
          path = TrimPrefix (Name h) "/") ∧
  (∀ name, TrimPrefix (String "/" name) "/" = name) ∧
  (∀ name, String.prefix "/" name = false → TrimPrefix name "/" = name).
Proof.
  split; [|split; [|split; [|split; [|split]]]].
  - intros contents. unfold UntarReaderToMem, tarOfFiles.
    by rewrite untarLoop_archive.
  - intros entries. apply untarLoop_archive.
  - intros pre h contents post Hreg Hpost. eexists. split.
    { apply untarLoop_archive. }
    rewrite foldl_app. simpl. rewrite foldl_store_lookup_later by done.
    unfold store at 1. simpl. rewrite Hreg. simpl.
    apply lookup_insert_eq.
  - intros entries mem path contents Hrun Hlook.
    unfold UntarReaderToMem in Hrun. rewrite untarLoop_archive in Hrun.
    simplify_eq.
    destruct (foldl_store_lookup_Some _ _ _ _ Hlook) as [Hempty|]; [|done].
    by rewrite lookup_empty in Hempty.
  - apply TrimPrefix_slash.
  - intros name H. unfold TrimPrefix. by rewrite H.
Qed.

(** C3 on a stream holding a directory, the dump and a symbolic link. *)
Lemma untar_roundtrip_witness :
  (∃ mem,
     UntarReaderToMem
       (archive ([({| Name := "/tmp"; Typeflag := TypeDir |}, [])] ++
                 ({| Name := "/dump.sql"; Typeflag := TypeReg |}, Demo.dump)
                 :: [({| Name := "latest"; Typeflag := TypeSymlink |}, [])]))
     = inl mem ∧
     mem !! TrimPrefix "/dump.sql" "/" = Some Demo.dump) ∧
  (∃ h, (h, Demo.dump) ∈ [({| Name := "/dump.sql"; Typeflag := TypeReg |},
                           Demo.dump)] ∧
        Typeflag h = TypeReg ∧ "dump.sql" = TrimPrefix (Name h) "/") ∧
  TrimPrefix "dump.sql" "/" = "dump.sql".
Proof.
  destruct untar_roundtrip as (_ & _ & Hlast & Hkeys & _ & Hkeep).
  split; [|split].
  - apply (Hlast [({| Name := "/tmp"; Typeflag := TypeDir |}, [])]
                 {| Name := "/dump.sql"; Typeflag := TypeReg |} Demo.dump
                 [({| Name := "latest"; Typeflag := TypeSymlink |}, [])]);
      [reflexivity|].
    constructor; [|constructor]. simpl. discriminate.
  - apply (Hkeys [({| Name := "/dump.sql"; Typeflag := TypeReg |}, Demo.dump)]
                 {[ "dump.sql" := Demo.dump ]} "dump.sql" Demo.dump);
      reflexivity.
  - apply (Hkeep "dump.sql"). reflexivity.
Defined.

(** ** The uploader (C5, C9) *)

(** C5: whatever the application name, the stream and the time of the
    upload, the uploader puts exactly one object, and its key is the
    application name, then '/', then the RFC3339 rendering of the time
    read from the clock, then '.sql'.  For the name shop and the time
    2023-01-01T00:00:00Z the key is shop/2023-01-01T00:00:00Z.sql. *)
Theorem object_key_format :
  (∀ (W : Type) (b : Backuper W) (appName : string) (reader : TarReader)
     (w : W),
     puts (trace (UploadDump b appName reader w)) =
       [(bucket b,
         appName +:+ "/" +:+ RFC3339 (Now b w).1 +:+ ".sql",
         default [] (decoded (UntarReaderToMem reader) !! "dump.sql"))]) ∧
  RFC3339 Demo.newYear2023 = "2023-01-01T00:00:00Z" ∧
  puts (trace (UploadDump Demo.secondRefuses "shop"
                 (tarOfFiles [("dump.sql", Demo.dump)]) tt)) =
    [("backups", "shop/2023-01-01T00:00:00Z.sql", Demo.dump)].
Proof.
  split; [|split].
  - intros W b appName reader w. apply UploadDump_puts.
  - reflexivity.
  - reflexivity.
Qed.

(** C9: when decoding fails, or the decoded map has no entry dump.sql,
    the uploader still puts an object under the usual key, with an empty
    payload; nothing it logs depends on the decoding, so the condition
    goes unreported: the run is the one of an archive holding an empty
    dump.sql. *)
Theorem decode_failure_uploads_empty {W : Type} (b : Backuper W)
    (appName : string) (reader : TarReader) (w : W) :
  ((∃ e, UntarReaderToMem reader = inr e) ∨
   (∃ mem, UntarReaderToMem reader = inl mem ∧ mem !! "dump.sql" = None)) →
  let now := Now b w in
  let key := objectKey appName (RFC3339 now.1) in
  let stored := PutObject b (bucket b) key [] now.2 in
  UploadDump b appName reader w =
    {| trace :=
         EvPut (bucket b) key [] ::
         match stored.1.2 with
         | Some e => [EvLog ["Failed to upload backup file for"; appName;
                             ":"; e]]
         | None => []
         end ++
         [EvLog ["Uploaded backup file"; Location stored.1.1]; EvClose];
       world := stored.2;
       result := Ret tt |} ∧
  UploadDump b appName reader w
  = UploadDump b appName (tarOfFiles [("dump.sql", [])]) w.
Proof.
  intros Hdecode now key stored.
  assert (default [] (decoded (UntarReaderToMem reader) !! "dump.sql") = [])
    as Hpayload.
  { destruct Hdecode as [[e ->] | (mem & -> & Hnone)]; simpl.
    - by rewrite lookup_empty.
    - by rewrite Hnone. }
  rewrite !UploadDump_run. cbv zeta. rewrite Hpayload.
  split; reflexivity.
Qed.

(** C9 on a truncated stream and on an archive without dump.sql. *)
Lemma decode_failure_uploads_empty_witness :
  UploadDump Demo.truncatedCopy "shop" (NextFails "unexpected EOF") tt =
    {| trace :=
         [EvPut "backups" "shop/2023-01-01T00:00:00Z.sql" [];
          EvLog ["Uploaded backup file";
                 "http://minio/backups/shop/2023-01-01T00:00:00Z.sql"];
          EvClose];
       world := tt; result := Ret tt |} ∧
  UploadDump Demo.putFails "shop"
    (tarOfFiles [("notes.txt", Demo.dump)]) tt =
    {| trace :=
         [EvPut "backups" "shop/2023-01-01T00:00:00Z.sql" [];
          EvLog ["Failed to upload backup file for"; "shop"; ":";
                 "Access Denied"];
          EvLog ["Uploaded backup file"; ""];
          EvClose];
       world := tt; result := Ret tt |}.
Proof.
  split.
  - apply (decode_failure_uploads_empty Demo.truncatedCopy "shop"
             (NextFails "unexpected EOF") tt).
    left. exists "unexpected EOF". reflexivity.
  - apply (decode_failure_uploads_empty Demo.putFails "shop"
             (tarOfFiles [("notes.txt", Demo.dump)]) tt).
    right. exists {[ "notes.txt" := Demo.dump ]}. split; reflexivity.
Defined.

(** ** The wait loop and the extractor (C6, C8) *)

Lemma poller_S {W : Type} (b : Backuper W) (rounds : nat) (execID : string)
    (t : N) (w : W) :
  poller b (S rounds) execID t w =
    let '(inspect, err, took, w') := ContainerExecInspect b execID w in
    let t1 := (t + took)%N in
    if (timeout_ms <=? t1)%N then Some (TimedOut, w')
    else
      let sent := bool_decide (err ≠ None) in
      if negb (Running inspect) then Some (Signalled t1, w')
      else if sent then Some (Signalled t1, w')
      else
        let t2 := (t1 + poll_interval_ms)%N in
        if (timeout_ms <=? t2)%N then Some (TimedOut, w')
        else poller b rounds execID t2 w'.
Proof. reflexivity. Qed.

Local Opaque poller.

Lemma await_elapsed {W : Type} (b : Backuper W) (execID : string) (w : W) :
  (elapsed_ms (await b execID w).1 ≤ timeout_ms)%N.
Proof. eapply poller_elapsed, poller_total. Qed.

Lemma await_first_poll_error {W : Type} (b : Backuper W) (execID : string)
    (w w' : W) (inspect : ExecInspect) (e : error) (took : N) :
  ContainerExecInspect b execID w = (inspect, Some e, took, w') →
  (took < timeout_ms)%N →
  await b execID w = (Signalled took, w').
Proof.
  intros Hpoll Htook. unfold await, max_rounds.
  rewrite poller_S, Hpoll. cbv zeta. rewrite N.add_0_l.
  apply N.leb_gt in Htook. rewrite Htook.
  by destruct (Running inspect).
Qed.

(** C6: when the invocation was created and started and never reports
    finished, the wait returns when the 30 s timer fires (and no wait
    ever lasts longer), the time-out is logged and no error is returned,
    and the extractor goes on to the copy step and returns what the copy
    yields: the archive stream when the copy succeeds. *)
Theorem wait_times_out {W : Type} (b : Backuper W) (c : Container)
    (dbName user : string) (w : W) (execID : string) :
  let created := ContainerExecCreate b (ID c) (pg_dump_cmd user dbName) w in
  let begun := ContainerExecStart b execID created.2 in
  let waited := await b execID begun.2 in
  let copied := CopyFromContainer b (ID c) "/tmp/dump.sql" waited.2 in
  created.1 = inl execID →
  begun.1 = None →
  neverFinished b execID begun.2 →
  poller b max_rounds execID 0%N begun.2 = Some waited ∧
  waited.1 = TimedOut ∧
  elapsed_ms waited.1 = 30000%N ∧
  (∀ execID' w', (elapsed_ms (await b execID' w').1 ≤ 30000)%N) ∧
  waitForExecToEnd b execID begun.2 =
    {| trace := [EvLog ["Timed out waiting for exec"; execID]];
       world := waited.2; result := Ret tt |} ∧
  DumpData b c dbName user w =
    {| trace := [EvLog ["Timed out waiting for exec"; execID]];
       world := copied.2; result := Ret copied.1 |} ∧
  (∀ reader, copied.1 = inl reader →
             result (DumpData b c dbName user w) = Ret (inl reader)).
Proof.
  intros created begun waited copied Hcreated Hbegun Hnever.
  pose proof (poller_total b execID begun.2) as Htotal. fold waited in Htotal.
  pose proof (poller_neverFinished b _ _ _ _ _ Hnever Htotal) as Hout.
  assert (waitForExecToEnd b execID begun.2 =
            {| trace := [EvLog ["Timed out waiting for exec"; execID]];
               world := waited.2; result := Ret tt |}) as Hwait.
  { unfold waitForExecToEnd. fold waited.
    destruct waited as [[] w3]; simpl in *; done. }
  assert (DumpData b c dbName user w =
            {| trace := [EvLog ["Timed out waiting for exec"; execID]];
               world := copied.2; result := Ret copied.1 |}) as Hdump.
  { rewrite (DumpData_waits b c dbName user w execID Hcreated Hbegun).
    fold created. fold begun. rewrite Hwait. reflexivity. }
  split; [done|]. split; [done|]. split; [by rewrite Hout|].
  split; [intros; apply await_elapsed|]. split; [done|]. split; [done|].
  intros reader Hcopy. by rewrite Hdump, <- Hcopy.
Qed.

(** C6 on an invocation whose every poll answers "running". *)
Lemma wait_times_out_witness :
  DumpData Demo.stillRunning Demo.first "shop" "admin" tt =
    {| trace := [EvLog ["Timed out waiting for exec";
                        "exec-aaaaaaaaaaaa0001"]];
       world := tt;
       result := Ret (inl (tarOfFiles [("dump.sql", Demo.dump)])) |}.
Proof.
  apply (wait_times_out Demo.stillRunning Demo.first "shop" "admin" tt
           "exec-aaaaaaaaaaaa0001").
  - reflexivity.
  - reflexivity.
  - intros n. reflexivity.
Defined.


(** C8: a status poll that answers with an error makes the wait loop
    signal completion exactly as a poll reporting the command finished
    does: replacing every failing poll by a "finished" answer changes
    nothing in what the wait loop and the extractor do.  The error is not
    surfaced: the wait returns at once without logging, and the extractor
    goes straight on to the copy step. *)
Theorem poll_error_is_taken_as_finished {W : Type} (b : Backuper W) :
  (∀ rounds execID t w,
     poller (pollErrorsAsFinished b) rounds execID t w
     = poller b rounds execID t w) ∧
  (∀ execID w,
     waitForExecToEnd (pollErrorsAsFinished b) execID w
     = waitForExecToEnd b execID w) ∧
  (∀ c dbName user w,
     DumpData (pollErrorsAsFinished b) c dbName user w
     = DumpData b c dbName user w) ∧
  (∀ execID w w' inspect e took,
     ContainerExecInspect b execID w = (inspect, Some e, took, w') →
     (took < timeout_ms)%N →
     await b execID w = (Signalled took, w') ∧
     waitForExecToEnd b execID w =
       {| trace := []; world := w'; result := Ret tt |}) ∧
  (∀ c dbName user w execID w' inspect e took,
     let created :=
       ContainerExecCreate b (ID c) (pg_dump_cmd user dbName) w in
     let begun := ContainerExecStart b execID created.2 in
     let copied := CopyFromContainer b (ID c) "/tmp/dump.sql" w' in
     created.1 = inl execID →
     begun.1 = None →
     ContainerExecInspect b execID begun.2 = (inspect, Some e, took, w') →
     (took < timeout_ms)%N →
     DumpData b c dbName user w =
       {| trace := []; world := copied.2; result := Ret copied.1 |}).
Proof.
  assert (∀ execID w w' inspect e took,
     ContainerExecInspect b execID w = (inspect, Some e, took, w') →
     (took < timeout_ms)%N →
     waitForExecToEnd b execID w =
       {| trace := []; world := w'; result := Ret tt |}) as Hwait.
  { intros execID w w' inspect e took Hpoll Htook. unfold waitForExecToEnd.
    by rewrite (await_first_poll_error b _ _ _ _ _ _ Hpoll Htook). }
  split; [|split; [|split; [|split]]].
  - apply poller_conflates.
  - apply waitForExecToEnd_conflates.
  - apply DumpData_conflates.
  - intros execID w w' inspect e took Hpoll Htook. split.
    + by eapply await_first_poll_error.
    + by eapply Hwait.
  - intros c dbName user w execID w' inspect e took created begun copied
      Hcreated Hbegun Hpoll Htook.
    rewrite (DumpData_waits b c dbName user w execID Hcreated Hbegun).
    fold created. fold begun.
    by rewrite (Hwait _ _ _ _ _ _ Hpoll Htook).
Qed.

(** C8 on an invocation whose status poll fails. *)
Lemma poll_error_is_taken_as_finished_witness :
  (await Demo.pollFails "exec-aaaaaaaaaaaa0001" tt = (Signalled 5%N, tt) ∧
   waitForExecToEnd Demo.pollFails "exec-aaaaaaaaaaaa0001" tt =
     {| trace := []; world := tt; result := Ret tt |}) ∧
  DumpData Demo.pollFails Demo.first "shop" "admin" tt =
    {| trace := []; world := tt;
       result := Ret (inl (tarOfFiles [("dump.sql", Demo.dump)])) |}.
Proof.
  destruct (poll_error_is_taken_as_finished Demo.pollFails)
    as (_ & _ & _ & Hwait & Hdump).
  split.
  - apply (Hwait "exec-aaaaaaaaaaaa0001" tt tt {| Running := false |}
             "No such exec instance" 5%N); reflexivity.
  - apply (Hdump Demo.first "shop" "admin" tt "exec-aaaaaaaaaaaa0001" tt
             {| Running := false |} "No such exec instance" 5%N);
      reflexivity.
Defined.

(** ** The scan (C1, C7) *)

(** C7, as stated, fails: a listing call that fails while handing back a
    container does not keep the scan from backing that container up. *)
Lemma listing_failure_may_process_containers :
  (ContainerList Cases.listingHalfFails scanFilters tt).1
    = ([Demo.first], Some "json: cannot unmarshal") ∧
  Scan Cases.listingHalfFails tt =
    {| trace :=
         [EvLog ["Start containers scan"];
          EvStdout ["Failed to list containers:"; "json: cannot unmarshal"];
          EvLog ["Starting backup for container"; "aaaaaaaaaaaa"];
          EvPut "backups" "/shop-db/2023-01-01T00:00:00Z.sql" Demo.dump;
          EvLog ["Uploaded backup file";
                 "http://minio/backups//shop-db/2023-01-01T00:00:00Z.sql"];
          EvClose;
          EvLog ["Finished backup for container"; "aaaaaaaaaaaa"];
          EvLog ["End containers scan"]];
       world := tt; result := Ret tt |}.
Proof. by split. Qed.

(** C7, amended: when the listing call fails and hands back no
    containers (an error and an empty list), the
    failure is printed, no backup is begun and nothing is put in that
    cycle, and the scan ends normally: a later cycle runs as usual from
    the state the failed one left. *)
Theorem listing_failure_skips_cycle {W : Type} (b : Backuper W) (w w1 : W)
    (e : error) :
  ContainerList b scanFilters w = (([], Some e), w1) →
  Scan b w =
    {| trace := [EvLog ["Start containers scan"];
                 EvStdout ["Failed to list containers:"; e];
                 EvLog ["End containers scan"]];
       world := w1; result := Ret tt |} ∧
  starts (trace (Scan b w)) = [] ∧
  puts (trace (Scan b w)) = [] ∧
  (Scan b;; Scan b) w =
    {| trace := [EvLog ["Start containers scan"];
                 EvStdout ["Failed to list containers:"; e];
                 EvLog ["End containers scan"]] ++ trace (Scan b w1);
       world := world (Scan b w1); result := result (Scan b w1) |}.
Proof.
  intros Hlist.
  assert (Scan b w =
    {| trace := [EvLog ["Start containers scan"];
                 EvStdout ["Failed to list containers:"; e];
                 EvLog ["End containers scan"]];
       world := w1; result := Ret tt |}) as Hscan.
  { rewrite Scan_run; rewrite Hlist; done. }
  split; [done|]. rewrite Hscan. split; [done|]. split; [done|].
  rewrite (bind_Ret (Scan b) _ w tt); by rewrite Hscan.
Qed.

(** C7 on a runtime that cannot be reached. *)
Lemma listing_failure_skips_cycle_witness :
  Scan Demo.listingFails tt =
    {| trace := [EvLog ["Start containers scan"];
                 EvStdout ["Failed to list containers:";
                           "Cannot connect to the Docker daemon"];
                 EvLog ["End containers scan"]];
       world := tt; result := Ret tt |}.
Proof.
  apply (listing_failure_skips_cycle Demo.listingFails tt tt
           "Cannot connect to the Docker daemon").
  reflexivity.
Defined.

(** C1, as stated, fails on three counts.  When the copied-out stream
    cannot be decoded, nothing about the failure is logged and the
    container is not skipped: an empty object is put and the backup is
    reported as uploaded and finished.  When a listed container has an
    identifier shorter than 12 bytes, the scan stops with a panic before
    the containers after it are attempted.  And when the inspection of a
    container succeeds without a [Config], the scan stops with a panic in
    that container's backup, the next container never being begun. *)
Lemma scan_failure_not_always_isolated :
  UntarReaderToMem (NextFails "unexpected EOF") = inr "unexpected EOF" ∧
  Scan Demo.truncatedCopy tt =
    {| trace :=
         [EvLog ["Start containers scan"];
          EvLog ["Starting backup for container"; "aaaaaaaaaaaa"];
          EvPut "backups" "/shop-db/2023-01-01T00:00:00Z.sql" [];
          EvLog ["Uploaded backup file";
                 "http://minio/backups//shop-db/2023-01-01T00:00:00Z.sql"];
          EvClose;
          EvLog ["Finished backup for container"; "aaaaaaaaaaaa"];
          EvLog ["End containers scan"]];
       world := tt; result := Ret tt |} ∧
  (ContainerList Demo.stubListed scanFilters tt).1.1
    = [Demo.stub; Demo.first] ∧
  Scan Demo.stubListed tt =
    {| trace := [EvLog ["Start containers scan"]];
       world := tt; result := Panic (SliceBoundsOutOfRange 12 3) |} ∧
  (ContainerList Demo.nilConfig scanFilters tt).1.1
    = [Demo.first; Demo.second] ∧
  Scan Demo.nilConfig tt =
    {| trace := [EvLog ["Start containers scan"];
                 EvLog ["Starting backup for container"; "aaaaaaaaaaaa"]];
       world := tt; result := Panic NilPointerDereference |}.
Proof. by repeat split. Qed.

(** C1, amended: when every successful inspection carries a [Config],
    in a scan over listed containers whose identifiers all
    have at least 12 bytes, a backup is begun for every container, in
    listing order, whatever happens to the others, and the scan ends
    normally.  A container whose dump extraction fails has the failure
    logged with its short identifier and nothing put; a container whose
    extraction succeeds has its upload run, and a failed put is logged.
    With three containers of which the second fails dump extraction, the
    first and the third are attempted and uploaded. *)
Theorem scan_isolates_failures {W : Type} (b : Backuper W) (w : W) :
  let listed := ContainerList b scanFilters w in
  inspectsWithConfig b →
  Forall (λ c, 12 ≤ String.length (ID c)) listed.1.1 →
  (result (Scan b w) = Ret tt ∧
   starts (trace (Scan b w)) = map shortID listed.1.1 ∧
   last (trace (Scan b w)) = Some (EvLog ["End containers scan"])) ∧
  (∀ c w' err,
     12 ≤ String.length (ID c) →
     result (dumpStage b c w') = Ret (inr err) →
     BackupContainer b c w' =
       {| trace :=
            EvLog ["Starting backup for container"; shortID c] ::
            trace (dumpStage b c w') ++
            [EvLog ["Failed to dump data for"; shortID c; ":"; err]];
          world := world (dumpStage b c w');
          result := Ret tt |} ∧
     puts (trace (BackupContainer b c w')) = []) ∧
  (∀ c w' reader,
     12 ≤ String.length (ID c) →
     result (dumpStage b c w') = Ret (inl reader) →
     ∃ appName,
       getAppName c = Ret appName ∧
       let uploaded := UploadDump b appName reader (world (dumpStage b c w')) in
       BackupContainer b c w' =
         {| trace :=
              EvLog ["Starting backup for container"; shortID c] ::
              trace (dumpStage b c w') ++ trace uploaded ++
              [EvLog ["Finished backup for container"; shortID c]];
            world := world uploaded;
            result := Ret tt |}) ∧
  (∀ appName reader w' e,
     let now := Now b w' in
     (PutObject b (bucket b) (objectKey appName (RFC3339 now.1))
        (default [] (decoded (UntarReaderToMem reader) !! "dump.sql"))
        now.2).1.2 = Some e →
     result (UploadDump b appName reader w') = Ret tt ∧
     EvLog ["Failed to upload backup file for"; appName; ":"; e]
       ∈ trace (UploadDump b appName reader w')) ∧
  Scan Demo.secondRefuses tt =
    {| trace :=
         [EvLog ["Start containers scan"];
          EvLog ["Starting backup for container"; "aaaaaaaaaaaa"];
          EvPut "backups" "/shop-db/2023-01-01T00:00:00Z.sql" Demo.dump;
          EvLog ["Uploaded backup file";
                 "http://minio/backups//shop-db/2023-01-01T00:00:00Z.sql"];
          EvClose;
          EvLog ["Finished backup for container"; "aaaaaaaaaaaa"];
          EvLog ["Starting backup for container"; "bbbbbbbbbbbb"];
          EvLog ["Failed to dump data for"; "bbbbbbbbbbbb"; ":";
                 "No such container"];
          EvLog ["Starting backup for container"; "cccccccccccc"];
          EvPut "backups" "/wiki-db/2023-01-01T00:00:00Z.sql" Demo.dump;
          EvLog ["Uploaded backup file";
                 "http://minio/backups//wiki-db/2023-01-01T00:00:00Z.sql"];
          EvClose;
          EvLog ["Finished backup for container"; "cccccccccccc"];
          EvLog ["End containers scan"]];
       world := tt; result := Ret tt |}.
Proof.
  intros listed Hcfg Hids.
  split; [|split; [|split; [|split]]].
  - destruct (rangeContainers_attempts b listed.1.1 listed.2 Hcfg Hids)
      as [Hr Hs].
    rewrite (Scan_run b w Hr). fold listed. simpl.
    split; [done|]. split.
    + change (?e :: ?l) with ([e] ++ l).
      rewrite !starts_app, Hs. simpl.
      by destruct (listed.1.2); simpl; rewrite app_nil_r.
    + rewrite app_assoc, last_cons, last_snoc. done.
  - intros c w' err Hlen Hstage.
    destruct (BackupContainer_run b c w' Hlen) as (appName & _ & Hrun).
    cbv zeta in Hrun. rewrite Hstage in Hrun. split; [done|].
    rewrite Hrun. simpl.
    destruct (dumpStage_quiet b c w') as [_ Hp].
    by rewrite puts_app, Hp.
  - intros c w' reader Hlen Hstage.
    destruct (BackupContainer_run b c w' Hlen) as (appName & Happ & Hrun).
    cbv zeta in Hrun. rewrite Hstage in Hrun. by exists appName.
  - intros appName reader w' e now Hput. rewrite UploadDump_run.
    cbv zeta. fold now. rewrite Hput. simpl. split; [done|].
    apply list_elem_of_further, list_elem_of_here.
  - reflexivity.
Qed.

(** C1 on three containers, the second refusing the invocation, and on
    a store that rejects the put. *)
Lemma scan_isolates_failures_witness :
  result (Scan Demo.secondRefuses tt) = Ret tt ∧
  starts (trace (Scan Demo.secondRefuses tt))
    = ["aaaaaaaaaaaa"; "bbbbbbbbbbbb"; "cccccccccccc"] ∧
  puts (trace (BackupContainer Demo.secondRefuses Demo.second tt)) = [] ∧
  (∃ appName, getAppName Demo.third = Ret appName ∧
     puts (trace (BackupContainer Demo.secondRefuses Demo.third tt))
     = puts (trace (UploadDump Demo.secondRefuses appName
                      (tarOfFiles [("dump.sql", Demo.dump)]) tt))) ∧
  EvLog ["Failed to upload backup file for"; "shop"; ":"; "Access Denied"]
    ∈ trace (UploadDump Demo.putFails "shop"
               (tarOfFiles [("dump.sql", Demo.dump)]) tt).
Proof.
  assert (Forall (λ c, 12 ≤ String.length (ID c))
            (ContainerList Demo.secondRefuses scanFilters tt).1.1) as Hids.
  { repeat constructor; simpl; lia. }
  assert (inspectsWithConfig Demo.secondRefuses) as Hcfg.
  { intros id w. discriminate. }
  destruct (scan_isolates_failures Demo.secondRefuses tt Hcfg Hids)
    as ((Hr & Hs & _) & Hfail & Hok & _).
  destruct (scan_isolates_failures Demo.putFails tt) as (_ & _ & _ & Hput & _).
  { intros id w. discriminate. }
  { repeat constructor; simpl; lia. }
  split; [exact Hr|]. split; [exact Hs|]. split; [|split].
  - apply (Hfail Demo.second tt "No such container"); [simpl; lia|].
    reflexivity.
  - destruct (Hok Demo.third tt (tarOfFiles [("dump.sql", Demo.dump)]))
      as (appName & Happ & Hrun); [simpl; lia | reflexivity |].
    exists appName. split; [exact Happ|].
    cbv zeta in Hrun. rewrite Hrun. reflexivity.
  - apply (Hput "shop" (tarOfFiles [("dump.sql", Demo.dump)]) tt
             "Access Denied").
    reflexivity.
Defined.

(** * Further properties *)

(** ** The archive decoder on streams that break off *)

Lemma untarLoop_prepend (entries : list (Header * list byte))
    (tail : TarReader) (fileMap : gmap string (list byte)) :
  untarLoop (prepend entries tail) fileMap
  = untarLoop tail (foldl store fileMap entries).
Proof.
  revert fileMap. induction entries as [|[h contents] rest IH];
    intros fileMap; simpl; [done|].
  unfold store at 2. simpl.
  destruct (Ascii.eqb (Typeflag h) TypeReg); apply IH.
Qed.

Lemma dom_foldl_store (entries : list (Header * list byte))
    (fileMap : gmap string (list byte)) :
  dom (foldl store fileMap entries)
  = dom fileMap ∪ list_to_set (regularNames entries).
Proof.
  revert fileMap. induction entries as [|e rest IH]; intros fileMap; simpl.
  - by rewrite (right_id_L ∅ (∪)).
  - rewrite IH. unfold store, regularNames, regularName. simpl.
    destruct (Ascii.eqb (Typeflag e.1) TypeReg); simpl; [|done].
    by rewrite dom_insert_L, (comm_L (∪) {[_]}), (assoc_L (∪)).
Qed.

(** X1: an error of [Next] met after any number of well-read entries is
    returned as it is, and an error reading the body of a regular entry
    is returned wrapped with "unable to extract tar file"; either way no
    map comes back, whatever was read before. *)
Theorem untar_surfaces_errors (entries : list (Header * list byte)) :
  (∀ e, UntarReaderToMem (prepend entries (NextFails e)) = inr e) ∧
  (∀ h e rest, Typeflag h = TypeReg →
     UntarReaderToMem (prepend entries (NextEntry (Some h) (inr e) rest))
     = inr ("unable to extract tar file: " +:+ e)).
Proof.
  unfold UntarReaderToMem. split.
  - intros e. by rewrite untarLoop_prepend.
  - intros h e rest Hreg. rewrite untarLoop_prepend. simpl.
    by rewrite Hreg.
Qed.

(** X1 on a stream that breaks in the body of dump.sql after a
    directory entry. *)
Lemma untar_surfaces_errors_witness :
  UntarReaderToMem
    (prepend [({| Name := "/tmp"; Typeflag := TypeDir |}, [])]
       (NextEntry (Some {| Name := "dump.sql"; Typeflag := TypeReg |})
                  (inr "unexpected EOF") AtEOF))
  = inr "unable to extract tar file: unexpected EOF".
Proof.
  apply (proj2 (untar_surfaces_errors
           [({| Name := "/tmp"; Typeflag := TypeDir |}, [])])
           {| Name := "dump.sql"; Typeflag := TypeReg |}).
  reflexivity.
Defined.

(** X2: the body of an entry that is not a regular file is never read,
    and neither is anything after a nil header: such an entry, even with
    an unreadable body, changes nothing in what the decoder returns. *)
Theorem untar_never_reads_other_entries
    (entries : list (Header * list byte)) (body : list byte + error)
    (rest : TarReader) :
  (∀ h, Typeflag h ≠ TypeReg →
     UntarReaderToMem (prepend entries (NextEntry (Some h) body rest))
     = UntarReaderToMem (prepend entries rest)) ∧
  UntarReaderToMem (prepend entries (NextEntry None body rest))
  = UntarReaderToMem (prepend entries rest).
Proof.
  unfold UntarReaderToMem. split.
  - intros h Hreg. rewrite !untarLoop_prepend. simpl.
    destruct (Ascii.eqb_spec (Typeflag h) TypeReg); done.
  - by rewrite !untarLoop_prepend.
Qed.

(** X2 on a symbolic link whose body cannot be read. *)
Lemma untar_never_reads_other_entries_witness :
  UntarReaderToMem
    (prepend [({| Name := "dump.sql"; Typeflag := TypeReg |}, Demo.dump)]
       (NextEntry (Some {| Name := "latest"; Typeflag := TypeSymlink |})
                  (inr "unexpected EOF") AtEOF))
  = UntarReaderToMem
      (prepend [({| Name := "dump.sql"; Typeflag := TypeReg |}, Demo.dump)]
         AtEOF).
Proof.
  apply (proj1 (untar_never_reads_other_entries
           [({| Name := "dump.sql"; Typeflag := TypeReg |}, Demo.dump)]
           (inr "unexpected EOF") AtEOF)
           {| Name := "latest"; Typeflag := TypeSymlink |}).
  discriminate.
Defined.

(** X3: on a well-formed stream the keys of the decoded map are exactly
    the names of the regular entries, each with one leading '/' stripped:
    directories, links and the like leave no key. *)
Theorem untar_keys (entries : list (Header * list byte)) :
  ∃ mem, UntarReaderToMem (archive entries) = inl mem ∧
         dom mem = list_to_set (regularNames entries).
Proof.
  eexists. split; [apply untarLoop_archive|].
  by rewrite dom_foldl_store, dom_empty_L, (left_id_L ∅ (∪)).
Qed.

(** ** The extractor *)

Local Opaque waitForExecToEnd.

(** X4: the extractor returns an error exactly when the creation of the
    invocation, its start, or the copy fails, and the error is that
    call's; when the creation fails nothing further is asked of the
    runtime and nothing is logged. *)
Theorem DumpData_fails_iff {W : Type} (b : Backuper W) (c : Container)
    (dbName user : string) (w : W) (e : error) :
  let created := ContainerExecCreate b (ID c) (pg_dump_cmd user dbName) w in
  (result (DumpData b c dbName user w) = Ret (inr e) ↔
   created.1 = inr e ∨
   ∃ execID, created.1 = inl execID ∧
     let begun := ContainerExecStart b execID created.2 in
     begun.1 = Some e ∨
     (begun.1 = None ∧
      (CopyFromContainer b (ID c) "/tmp/dump.sql"
         (world (waitForExecToEnd b execID begun.2))).1 = inr e)) ∧
  (created.1 = inr e →
   DumpData b c dbName user w =
     {| trace := []; world := created.2; result := Ret (inr e) |}).
Proof.
  intros created. split; [|apply DumpData_create_fails].
  destruct created.1 as [execID|e'] eqn:Hc.
  - destruct (ContainerExecStart b execID created.2).1 as [e'|] eqn:Hs.
    + rewrite (DumpData_start_fails b c dbName user w execID e' Hc Hs).
      simpl. split.
      * intros ?. simplify_eq. right. exists execID. split; [done|].
        cbv zeta. fold created. by left.
      * intros [?|(execID' & ? & Hor)]; [done|]. simplify_eq.
        cbv zeta in Hor. fold created in Hor. rewrite Hs in Hor.
        destruct Hor as [?|[? _]]; by simplify_eq.
    + rewrite (DumpData_waits b c dbName user w execID Hc Hs). simpl.
      fold created. split.
      * intros ?. simplify_eq. right. exists execID. split; [done|].
        cbv zeta. by right.
      * intros [?|(execID' & ? & Hor)]; [done|]. simplify_eq.
        cbv zeta in Hor. rewrite Hs in Hor.
        destruct Hor as [?|[_ Hcopy]]; [done|]. by rewrite Hcopy.
  - rewrite (DumpData_create_fails b c dbName user w e' Hc). simpl. split.
    + intros ?. simplify_eq. by left.
    + intros [?|(execID' & ? & _)]; by simplify_eq.
Qed.

(** X4 on a refused invocation and on a failing copy. *)
Lemma DumpData_fails_iff_witness :
  DumpData Demo.secondRefuses Demo.second "shop" "admin" tt =
    {| trace := []; world := tt; result := Ret (inr "No such container") |} ∧
  result (DumpData Cases.copyFails Demo.first "shop" "admin" tt)
    = Ret (inr "Could not find the file").
Proof.
  split.
  - apply (DumpData_fails_iff Demo.secondRefuses Demo.second "shop" "admin"
             tt "No such container").
    reflexivity.
  - apply (DumpData_fails_iff Cases.copyFails Demo.first "shop" "admin" tt
             "Could not find the file").
    right. exists "exec-aaaaaaaaaaaa0001". split; [reflexivity|].
    right. split; reflexivity.
Defined.

Local Transparent waitForExecToEnd.

(** ** The uploader *)

Lemma closes_app (tr1 tr2 : list Event) :
  closes (tr1 ++ tr2) = closes tr1 + closes tr2.
Proof. unfold closes. by rewrite omap_app, length_app. Qed.

Lemma UploadDump_closes {W : Type} (b : Backuper W) (appName : string)
    (reader : TarReader) (w : W) :
  closes (trace (UploadDump b appName reader w)) = 1.
Proof.
  rewrite UploadDump_run. cbv zeta. simpl.
  by destruct (PutObject b _ _ _ _).1.2.
Qed.

(** X5: what is put is the contents of the last regular entry of the
    archive named dump.sql (or /dump.sql), whatever other entries the
    archive holds before or after it. *)
Theorem upload_payload_is_last_dump {W : Type} (b : Backuper W)
    (appName : string) (w : W) (pre post : list (Header * list byte))
    (h : Header) (contents : list byte) :
  Typeflag h = TypeReg →
  TrimPrefix (Name h) "/" = "dump.sql" →
  Forall (λ e, Typeflag e.1 = TypeReg →
               TrimPrefix (Name e.1) "/" ≠ "dump.sql") post →
  puts (trace (UploadDump b appName
                 (archive (pre ++ (h, contents) :: post)) w)) =
    [(bucket b, objectKey appName (RFC3339 (Now b w).1), contents)].
Proof.
  intros Hreg Hname Hpost. rewrite UploadDump_puts.
  unfold UntarReaderToMem. rewrite untarLoop_archive. simpl.
  rewrite foldl_app. simpl. rewrite foldl_store_lookup_later by done.
  unfold store at 1. simpl. rewrite Hreg. simpl.
  by rewrite Hname, lookup_insert_eq.
Qed.

(** X5 on an archive holding a directory, two versions of the dump and
    a file of notes. *)
Lemma upload_payload_is_last_dump_witness :
  puts (trace (UploadDump Demo.secondRefuses "shop"
    (archive ([({| Name := "/tmp"; Typeflag := TypeDir |}, []);
               ({| Name := "dump.sql"; Typeflag := TypeReg |}, [x2d])] ++
              ({| Name := "/dump.sql"; Typeflag := TypeReg |}, Demo.dump)
              :: [({| Name := "notes.txt"; Typeflag := TypeReg |}, [x0a])]))
    tt)) =
  [("backups", "shop/2023-01-01T00:00:00Z.sql", Demo.dump)].
Proof.
  apply (upload_payload_is_last_dump Demo.secondRefuses "shop" tt
           [({| Name := "/tmp"; Typeflag := TypeDir |}, []);
            ({| Name := "dump.sql"; Typeflag := TypeReg |}, [x2d])]
           [({| Name := "notes.txt"; Typeflag := TypeReg |}, [x0a])]
           {| Name := "/dump.sql"; Typeflag := TypeReg |} Demo.dump).
  - reflexivity.
  - reflexivity.
  - constructor; [|constructor]. simpl. intros _. discriminate.
Defined.

(** X6: every upload returns, puts exactly one object, logs the line
    "Uploaded backup file" with the location the store handed back, also
    after a failed put, and closes the copied-out stream exactly once, as
    its last act. *)
Theorem upload_always_reports_and_closes {W : Type} (b : Backuper W)
    (appName : string) (reader : TarReader) (w : W) :
  let now := Now b w in
  let stored :=
    PutObject b (bucket b) (objectKey appName (RFC3339 now.1))
      (default [] (decoded (UntarReaderToMem reader) !! "dump.sql")) now.2 in
  result (UploadDump b appName reader w) = Ret tt ∧
  world (UploadDump b appName reader w) = stored.2 ∧
  length (puts (trace (UploadDump b appName reader w))) = 1 ∧
  EvLog ["Uploaded backup file"; Location stored.1.1]
    ∈ trace (UploadDump b appName reader w) ∧
  last (trace (UploadDump b appName reader w)) = Some EvClose ∧
  closes (trace (UploadDump b appName reader w)) = 1.
Proof.
  intros now stored. rewrite UploadDump_puts, UploadDump_closes.
  rewrite UploadDump_run. cbv zeta. fold now. fold stored. simpl.
  repeat split; try done.
  - destruct stored.1.2; simpl; repeat constructor.
  - destruct stored.1.2; done.
Qed.

(** ** One container's backup *)

Local Opaque UploadDump dumpStage DumpData getDatabaseName getDatabaseUser.

Lemma Outcome_eta {W A : Type} (o : Outcome W A) :
  {| trace := trace o; world := world o; result := result o |} = o.
Proof. by destruct o. Qed.

Local Opaque dumpStage.

Lemma BackupContainer_tally {W : Type} (b : Backuper W) (c : Container)
    (w : W) :
  12 ≤ String.length (ID c) →
  match result (dumpStage b c w) with
  | Ret (inl _) =>
      length (puts (trace (BackupContainer b c w))) = 1 ∧
      closes (trace (BackupContainer b c w)) = 1
  | _ =>
      puts (trace (BackupContainer b c w)) = [] ∧
      closes (trace (BackupContainer b c w)) = 0
  end.
Proof.
  intros Hlen.
  destruct (BackupContainer_run b c w Hlen) as (appName & _ & Hrun).
  cbv zeta in Hrun.
  assert (∀ tr, closes (EvLog ["Starting backup for container"; shortID c]
                        :: trace (dumpStage b c w) ++ tr) = closes tr) as Hc.
  { intros tr. by destruct (dumpStage_trace b c w) as [-> | [? ->]]. }
  assert (∀ tr, puts (EvLog ["Starting backup for container"; shortID c]
                      :: trace (dumpStage b c w) ++ tr) = puts tr) as Hp.
  { intros tr. by destruct (dumpStage_trace b c w) as [-> | [? ->]]. }
  pose proof (Hc []) as Hc0. pose proof (Hp []) as Hp0.
  rewrite app_nil_r in Hc0, Hp0.
  destruct (result (dumpStage b c w)) as [[reader|err]|p]; rewrite Hrun;
    cbn [trace].
  - rewrite Hc, Hp.
    by rewrite puts_app, UploadDump_puts, closes_app, UploadDump_closes.
  - by rewrite Hc, Hp.
  - by rewrite Hc0, Hp0.
Qed.

(** X7: for a container with an identifier of at least 12 bytes, the
    line "Finished backup for container" is logged exactly when the dump
    extraction succeeded, whether or not the put that followed failed;
    then one object was put and one stream closed.  When the extraction
    failed, nothing is put and nothing closed. *)
Theorem finished_follows_extraction {W : Type} (b : Backuper W)
    (c : Container) (w : W) :
  12 ≤ String.length (ID c) →
  match result (dumpStage b c w) with
  | Ret (inl _) =>
      (EvLog ["Finished backup for container"; shortID c]
         ∈ trace (BackupContainer b c w)) ∧
      length (puts (trace (BackupContainer b c w))) = 1 ∧
      closes (trace (BackupContainer b c w)) = 1
  | _ =>
      (EvLog ["Finished backup for container"; shortID c]
         ∉ trace (BackupContainer b c w)) ∧
      puts (trace (BackupContainer b c w)) = [] ∧
      closes (trace (BackupContainer b c w)) = 0
  end.
Proof.
  intros Hlen. pose proof (BackupContainer_tally b c w Hlen) as Htally.
  destruct (BackupContainer_run b c w Hlen) as (appName & _ & Hrun).
  cbv zeta in Hrun.
  destruct (result (dumpStage b c w)) as [[reader|err]|p];
    (split; [|done]); rewrite Hrun; cbn [trace].
  - apply list_elem_of_further. rewrite !elem_of_app. right. right.
    apply list_elem_of_here.
  - destruct (dumpStage_trace b c w) as [-> | [? ->]]; simpl.
    + repeat (apply not_elem_of_cons; split; [done|]).
      apply not_elem_of_nil.
    + repeat (apply not_elem_of_cons; split; [done|]).
      apply not_elem_of_nil.
  - destruct (dumpStage_trace b c w) as [-> | [? ->]]; simpl.
    + repeat (apply not_elem_of_cons; split; [done|]).
      apply not_elem_of_nil.
    + repeat (apply not_elem_of_cons; split; [done|]).
      apply not_elem_of_nil.
Qed.

(** X7 on a store that rejects the put and on a refused invocation. *)
Lemma finished_follows_extraction_witness :
  ((EvLog ["Finished backup for container"; "aaaaaaaaaaaa"]
      ∈ trace (BackupContainer Demo.putFails Demo.first tt)) ∧
   length (puts (trace (BackupContainer Demo.putFails Demo.first tt))) = 1 ∧
   closes (trace (BackupContainer Demo.putFails Demo.first tt)) = 1) ∧
  ((EvLog ["Finished backup for container"; "bbbbbbbbbbbb"]
      ∉ trace (BackupContainer Demo.secondRefuses Demo.second tt)) ∧
   puts (trace (BackupContainer Demo.secondRefuses Demo.second tt)) = [] ∧
   closes (trace (BackupContainer Demo.secondRefuses Demo.second tt)) = 0).
Proof.
  split.
  - apply (finished_follows_extraction Demo.putFails Demo.first tt).
    simpl; lia.
  - apply (finished_follows_extraction Demo.secondRefuses Demo.second tt).
    simpl; lia.
Defined.

Local Transparent dumpStage.

(** X8: a container carrying both database override labels is never
    inspected: the extraction starts from the untouched world with the
    two label values.  A container carrying neither is inspected once
    for the name and, unless that answer lacks a [Config] (a panic, with
    no second inspection), once more for the user; unless the second
    answer lacks a [Config] (a panic again), the extraction then starts
    with the name read off the first answer and the user off the
    second. *)
Theorem override_labels_skip_inspection {W : Type} (b : Backuper W)
    (c : Container) (w : W) :
  (∀ dbName user,
     Labels c !! "postgres-backup/db-name" = Some dbName →
     Labels c !! "postgres-backup/db-user" = Some user →
     dumpStage b c w = DumpData b c dbName user w) ∧
  (Labels c !! "postgres-backup/db-name" = None →
   Labels c !! "postgres-backup/db-user" = None →
   let once := ContainerInspect b (ID c) w in
   let twice := ContainerInspect b (ID c) once.2 in
   match resolved "POSTGRES_DB" once.1 with
   | Panic p =>
       dumpStage b c w =
         {| trace := []; world := once.2; result := Panic p |}
   | Ret dbName =>
       match resolved "POSTGRES_USER" twice.1 with
       | Panic p =>
           dumpStage b c w =
             {| trace := []; world := twice.2; result := Panic p |}
       | Ret user => dumpStage b c w = DumpData b c dbName user twice.2
       end
   end).
Proof.
  split.
  - intros dbName user Hdb Huser. unfold dumpStage.
    rewrite (bind_Ret _ _ w dbName)
      by (by rewrite (getDatabaseName_label b c w dbName Hdb)).
    rewrite (getDatabaseName_label b c w dbName Hdb). simpl.
    rewrite (bind_Ret _ _ w user)
      by (by rewrite (getDatabaseUser_label b c w user Huser)).
    rewrite (getDatabaseUser_label b c w user Huser). simpl.
    apply Outcome_eta.
  - intros Hdb Huser once twice. unfold dumpStage.
    destruct (resolved "POSTGRES_DB" once.1) as [dbName|p] eqn:H1.
    + rewrite (bind_Ret _ _ w dbName)
        by (by rewrite (getDatabaseName_inspect b c w Hdb)).
      rewrite (getDatabaseName_inspect b c w Hdb). simpl. fold once.
      destruct (resolved "POSTGRES_USER" twice.1) as [user|p] eqn:H2.
      * rewrite (bind_Ret _ _ once.2 user)
          by (by rewrite (getDatabaseUser_inspect b c _ Huser)).
        rewrite (getDatabaseUser_inspect b c _ Huser). simpl.
        apply Outcome_eta.
      * rewrite (bind_Panic _ _ once.2 p)
          by (by rewrite (getDatabaseUser_inspect b c _ Huser)).
        by rewrite (getDatabaseUser_inspect b c _ Huser).
    + rewrite (bind_Panic _ _ w p)
        by (by rewrite (getDatabaseName_inspect b c w Hdb)).
      by rewrite (getDatabaseName_inspect b c w Hdb).
Qed.

Local Opaque dumpStage.

(** X8 on a container with both labels where inspection would fail, and
    on one without labels. *)
Lemma override_labels_skip_inspection_witness :
  dumpStage Demo.inspectFails Cases.labelled tt
    = DumpData Demo.inspectFails Cases.labelled "orders" "clerk" tt ∧
  dumpStage Demo.secondRefuses Demo.first tt
    = DumpData Demo.secondRefuses Demo.first "shop" "admin" tt.
Proof.
  split.
  - apply (proj1 (override_labels_skip_inspection Demo.inspectFails
                    Cases.labelled tt)); reflexivity.
  - apply (proj2 (override_labels_skip_inspection Demo.secondRefuses
                    Demo.first tt)); reflexivity.
Defined.

(** ** The scan beyond the well-behaved listing *)

Lemma rangeContainers_stops {W : Type} (b : Backuper W)
    (pre post : list Container) (c : Container) (w : W) :
  inspectsWithConfig b →
  Forall (λ c, 12 ≤ String.length (ID c)) pre →
  String.length (ID c) < 12 →
  rangeContainers b (pre ++ c :: post) w =
    {| trace := trace (rangeContainers b pre w);
       world := world (rangeContainers b pre w);
       result := Panic (SliceBoundsOutOfRange 12 (String.length (ID c))) |}.
Proof.
  intros Hcfg Hpre Hc. revert w.
  induction Hpre as [|c0 pre Hc0 Hpre IH]; intros w.
  - simpl. rewrite (bind_Panic _ _ _ (SliceBoundsOutOfRange 12
                                        (String.length (ID c))));
      by rewrite BackupContainer_short.
  - destruct (BackupContainer_attempt b c0 w Hcfg Hc0) as [Hr _].
    simpl. rewrite !(bind_Ret _ _ _ _ Hr), IH. done.
Qed.

Lemma Scan_aborts {W : Type} (b : Backuper W) (w : W) (p : panic) :
  let listed := ContainerList b scanFilters w in
  let ranged := rangeContainers b listed.1.1 listed.2 in
  result ranged = Panic p →
  Scan b w =
    {| trace :=
         EvLog ["Start containers scan"] ::
         match listed.1.2 with
         | Some e => [EvStdout ["Failed to list containers:"; e]]
         | None => []
         end ++ trace ranged;
       world := world ranged;
       result := Panic p |}.
Proof.
  intros listed ranged Hr. subst ranged listed. unfold Scan.
  unfold mbind, M_bind, mret, M_ret, emit, call; simpl.
  destruct (ContainerList b scanFilters w) as [[cs [e|]] w1]; simpl in *;
    by rewrite Hr.
Qed.

(** X9: when every successful inspection carries a [Config], a listed
    container has an identifier shorter than 12 bytes
    and the containers listed before it have regular ones, the scan backs
    up exactly those before it and then panics: the containers after it
    are never begun and the end of the scan is never logged. *)
Theorem scan_stops_at_short_identifier {W : Type} (b : Backuper W) (w : W)
    (pre post : list Container) (c : Container) :
  let listed := ContainerList b scanFilters w in
  let ranged := rangeContainers b pre listed.2 in
  inspectsWithConfig b →
  listed.1.1 = pre ++ c :: post →
  Forall (λ c, 12 ≤ String.length (ID c)) pre →
  String.length (ID c) < 12 →
  Scan b w =
    {| trace :=
         EvLog ["Start containers scan"] ::
         match listed.1.2 with
         | Some e => [EvStdout ["Failed to list containers:"; e]]
         | None => []
         end ++ trace ranged;
       world := world ranged;
       result := Panic (SliceBoundsOutOfRange 12 (String.length (ID c))) |} ∧
  starts (trace (Scan b w)) = map shortID pre.
Proof.
  intros listed ranged Hcfg Hlist Hpre Hc.
  pose proof (rangeContainers_stops b pre post c listed.2 Hcfg Hpre Hc)
    as Hstop.
  rewrite <- Hlist in Hstop. fold ranged in Hstop.
  assert (Scan b w =
    {| trace :=
         EvLog ["Start containers scan"] ::
         match listed.1.2 with
         | Some e => [EvStdout ["Failed to list containers:"; e]]
         | None => []
         end ++ trace ranged;
       world := world ranged;
       result := Panic (SliceBoundsOutOfRange 12 (String.length (ID c))) |})
    as Hscan.
  { rewrite (Scan_aborts b w (SliceBoundsOutOfRange 12 (String.length (ID c))));
      fold listed; by rewrite Hstop. }
  split; [done|]. rewrite Hscan. cbn [trace].
  destruct (rangeContainers_attempts b pre listed.2 Hcfg Hpre) as [_ Hs].
  fold ranged in Hs.
  change (?e :: ?l) with ([e] ++ l). rewrite !starts_app, Hs.
  by destruct listed.1.2.
Qed.

(** X9 on a listing with a three-byte identifier in the middle. *)
Lemma scan_stops_at_short_identifier_witness :
  starts (trace (Scan Cases.stubInTheMiddle tt)) = ["aaaaaaaaaaaa"] ∧
  result (Scan Cases.stubInTheMiddle tt)
    = Panic (SliceBoundsOutOfRange 12 3).
Proof.
  destruct (scan_stops_at_short_identifier Cases.stubInTheMiddle tt
              [Demo.first] [Demo.third] Demo.stub) as [Hscan Hstarts].
  - intros id w. discriminate.
  - reflexivity.
  - constructor; [simpl; lia | constructor].
  - simpl; lia.
  - split; [exact Hstarts|]. rewrite Hscan. reflexivity.
Defined.

Lemma BackupContainer_counts {W : Type} (b : Backuper W) (c : Container)
    (w : W) :
  length (puts (trace (BackupContainer b c w))) ≤ 1 ∧
  closes (trace (BackupContainer b c w))
  = length (puts (trace (BackupContainer b c w))).
Proof.
  destruct (decide (12 ≤ String.length (ID c))) as [Hlen|Hlen].
  - pose proof (BackupContainer_tally b c w Hlen) as H.
    destruct (result (dumpStage b c w)) as [[?|?]|?];
      destruct H as (Hp & Hc); rewrite Hp, Hc; simpl; lia.
  - rewrite BackupContainer_short by lia. simpl. unfold closes. simpl. lia.
Qed.

Lemma rangeContainers_counts {W : Type} (b : Backuper W)
    (cs : list Container) (w : W) :
  length (puts (trace (rangeContainers b cs w))) ≤ length cs ∧
  closes (trace (rangeContainers b cs w))
  = length (puts (trace (rangeContainers b cs w))).
Proof.
  revert w. induction cs as [|c cs IH]; intros w.
  - simpl. unfold closes. simpl. lia.
  - destruct (BackupContainer_counts b c w) as [Hp Hc]. simpl.
    destruct (result (BackupContainer b c w)) as [[]|p] eqn:Hr.
    + rewrite (bind_Ret _ _ _ _ Hr). cbn [trace].
      destruct (IH (world (BackupContainer b c w))) as [Hp' Hc'].
      rewrite puts_app, closes_app, length_app. lia.
    + rewrite (bind_Panic _ _ _ _ Hr). cbn [trace]. lia.
Qed.

(** X10: whatever the runtime and the store answer, a scan puts at most
    one object per listed container, and it closes exactly as many
    copied-out streams as it puts objects. *)
Theorem scan_puts_at_most_one_per_container {W : Type} (b : Backuper W)
    (w : W) :
  length (puts (trace (Scan b w)))
    ≤ length (ContainerList b scanFilters w).1.1 ∧
  closes (trace (Scan b w)) = length (puts (trace (Scan b w))).
Proof.
  set (listed := ContainerList b scanFilters w).
  destruct (rangeContainers_counts b listed.1.1 listed.2) as [Hp Hc].
  destruct (result (rangeContainers b listed.1.1 listed.2)) as [[]|p] eqn:Hr.
  - rewrite (Scan_run b w Hr). fold listed. cbn [trace].
    change (?e :: ?l) with ([e] ++ l).
    rewrite !puts_app, !closes_app, !length_app, Hc.
    destruct listed.1.2; unfold closes; simpl; lia.
  - rewrite (Scan_aborts b w p Hr). fold listed. cbn [trace].
    change (?e :: ?l) with ([e] ++ l).
    rewrite !puts_app, !closes_app, !length_app, Hc.
    destruct listed.1.2; unfold closes; simpl; lia.
Qed.

(** X11: a listing error does not end the scan: the error is printed
    once, right after the opening line, and the containers handed back
    together with it are backed up as after a successful listing (here
    with identifiers of at least 12 bytes and inspections that carry a
    [Config], so that every one of them is begun). *)
Theorem listing_error_does_not_end_scan {W : Type} (b : Backuper W) (w : W)
    (e : error) :
  let listed := ContainerList b scanFilters w in
  let ranged := rangeContainers b listed.1.1 listed.2 in
  listed.1.2 = Some e →
  inspectsWithConfig b →
  Forall (λ c, 12 ≤ String.length (ID c)) listed.1.1 →
  Scan b w =
    {| trace :=
         EvLog ["Start containers scan"] ::
         EvStdout ["Failed to list containers:"; e] ::
         trace ranged ++ [EvLog ["End containers scan"]];
       world := world ranged; result := Ret tt |} ∧
  starts (trace (Scan b w)) = map shortID listed.1.1.
Proof.
  intros listed ranged Herr Hcfg Hids.
  destruct (rangeContainers_attempts b listed.1.1 listed.2 Hcfg Hids)
    as [Hr Hs].
  fold ranged in Hr, Hs.
  rewrite (Scan_run b w Hr). fold listed. fold ranged. rewrite Herr.
  split; [done|].
  change (starts ([EvLog ["Start containers scan"];
                   EvStdout ["Failed to list containers:"; e]] ++
                  trace ranged ++ [EvLog ["End containers scan"]])
          = map shortID listed.1.1).
  rewrite !starts_app, Hs. simpl. by rewrite app_nil_r.
Qed.

(** X11 on a listing that hands back one container and an error. *)
Lemma listing_error_does_not_end_scan_witness :
  starts (trace (Scan Cases.listingHalfFails tt)) = ["aaaaaaaaaaaa"] ∧
  puts (trace (Scan Cases.listingHalfFails tt))
    = [("backups", "/shop-db/2023-01-01T00:00:00Z.sql", Demo.dump)].
Proof.
  destruct (listing_error_does_not_end_scan Cases.listingHalfFails tt
              "json: cannot unmarshal") as [Hscan Hstarts].
  - reflexivity.
  - intros id w. discriminate.
  - constructor; [simpl; lia | constructor].
  - split; [exact Hstarts|]. rewrite Hscan. reflexivity.
Defined.

(** ** The number of status polls *)

Lemma poller_polls {W : Type} (b : Backuper W) (rounds : nat)
    (execID : string) (t : N) (w : W) (r : Wait * W) :
  poller b rounds execID t w = Some r →
  (∃ n, 1 ≤ n ≤ rounds ∧ r.2 = afterPolls b n execID w) ∧
  (∀ t', r.1 = Signalled t' → (t' < timeout_ms)%N).
Proof.
  revert t w. induction rounds as [|rounds IH]; intros t w H; [done|].
  rewrite poller_S in H.
  destruct (ContainerExecInspect b execID w) as [[[i e] took] w'] eqn:Hpoll.
  assert (w' = afterPolls b 1 execID w) as Hone.
  { simpl. by rewrite Hpoll. }
  cbv zeta in H.
  destruct (timeout_ms <=? t + took)%N eqn:E1.
  { simplify_eq. split; [exists 1; split; [lia | done] | done]. }
  apply N.leb_gt in E1.
  destruct (negb (Running i)).
  { simplify_eq. split; [exists 1; split; [lia | done]|].
    intros t' Ht'. simpl in Ht'. by simplify_eq. }
  destruct (bool_decide (e ≠ None)).
  { simplify_eq. split; [exists 1; split; [lia | done]|].
    intros t' Ht'. simpl in Ht'. by simplify_eq. }
  destruct (timeout_ms <=? t + took + poll_interval_ms)%N.
  { simplify_eq. split; [exists 1; split; [lia | done] | done]. }
  destruct (IH _ _ H) as [(n & Hn & Hw) Ht]. split; [|done].
  exists (S n). split; [lia|]. simpl. by rewrite Hpoll.
Qed.

(** X12: by the time the wait returns, the runtime has been polled at
    least once and at most 120 times; a wait that was signalled returns
    strictly before the 30 s timeout and logs nothing, and a wait that
    timed out logs exactly the time-out line. *)
Theorem wait_polls_bounded {W : Type} (b : Backuper W) (execID : string)
    (w : W) :
  (∃ n, 1 ≤ n ≤ 120 ∧ (await b execID w).2 = afterPolls b n execID w) ∧
  match (await b execID w).1 with
  | Signalled t =>
      (t < 30000)%N ∧ trace (waitForExecToEnd b execID w) = []
  | TimedOut =>
      trace (waitForExecToEnd b execID w)
      = [EvLog ["Timed out waiting for exec"; execID]]
  end.
Proof.
  destruct (poller_polls b _ _ _ _ _ (poller_total b execID w)) as [Hn Ht].
  split; [exact Hn|]. unfold waitForExecToEnd.
  destruct (await b execID w) as [[t|] w']; simpl in *; [|done].
  split; [by apply Ht | done].
Qed.

(** ** The pipeline of the main.go revision *)

Lemma afterReadBytes_found (delim : byte) (pre post : list byte) :
  delim ∉ pre →
  MainGoBackuper.afterReadBytes delim (pre ++ delim :: post) = post.
Proof.
  induction pre as [|x pre IH]; intros Hpre; simpl.
  - by rewrite (Byte.byte_dec_lb (eq_refl delim)).
  - apply not_elem_of_cons in Hpre as [Hne Hpre].
    destruct (Byte.eqb x delim) eqn:E; [|by apply IH].
    apply Byte.byte_dec_bl in E. by subst.
Qed.

Lemma afterReadBytes_missing (delim : byte) (data : list byte) :
  delim ∉ data → MainGoBackuper.afterReadBytes delim data = [].
Proof.
  induction data as [|x data IH]; intros Hdata; simpl; [done|].
  apply not_elem_of_cons in Hdata as [Hne Hdata].
  destruct (Byte.eqb x delim) eqn:E; [|by apply IH].
  apply Byte.byte_dec_bl in E. by subst.
Qed.

(** X13: in the main.go revision the extractor returns an error only
    when the creation of the invocation fails.  A failure to attach is
    swallowed: the caller gets the zero response, whose reader is nil,
    together with a nil error. *)
Theorem MainGo_attach_failure_is_swallowed {W : Type}
    (b : MainGoBackuper.Backuper W) (c : Container) (w : W) :
  let created :=
    MainGoBackuper.ContainerExecCreate b (ID c)
      {| MainGoBackuper.AttachStdout := true;
         MainGoBackuper.AttachStderr := true;
         MainGoBackuper.Cmd := ["pg_dump"; "-U"; "postgres"] |} w in
  (∀ e, created.1 = inr e →
     result (MainGoBackuper.DumpData b c w)
     = Ret ({| MainGoBackuper.Reader := None |}, Some e)) ∧
  (∀ execID e, created.1 = inl execID →
     (MainGoBackuper.ContainerExecAttach b execID created.2).1 = inr e →
     result (MainGoBackuper.DumpData b c w)
     = Ret ({| MainGoBackuper.Reader := None |}, None)) ∧
  (∀ response e,
     result (MainGoBackuper.DumpData b c w) = Ret (response, Some e) →
     created.1 = inr e).
Proof.
  intros created. subst created. unfold MainGoBackuper.DumpData.
  unfold mbind, M_bind, mret, M_ret, call. simpl.
  destruct (MainGoBackuper.ContainerExecCreate b _ _ w).1 as [execID|e0];
    simpl.
  - split; [done|]. split.
    + intros execID' e ? Hattach. simplify_eq. by rewrite Hattach.
    + intros response e.
      by destruct (MainGoBackuper.ContainerExecAttach b execID _).1.
  - split; [by intros e ?; simplify_eq|]. split; [done|].
    intros response e ?. by simplify_eq.
Qed.

(** X13 on a runtime that refuses to attach, and on one that refuses the
    invocation. *)
Lemma MainGo_attach_failure_is_swallowed_witness :
  result (MainGoBackuper.DumpData
            (Cases.mainGo "" (Some "connection refused") []) Demo.first tt)
    = Ret ({| MainGoBackuper.Reader := None |}, None) ∧
  result (MainGoBackuper.DumpData
            (Cases.mainGo (ID Demo.first) None []) Demo.first tt)
    = Ret ({| MainGoBackuper.Reader := None |}, Some "No such container").
Proof.
  destruct (MainGo_attach_failure_is_swallowed
              (Cases.mainGo "" (Some "connection refused") [])
              Demo.first tt) as (_ & Hattach & _).
  destruct (MainGo_attach_failure_is_swallowed
              (Cases.mainGo (ID Demo.first) None [])
              Demo.first tt) as (Hcreate & _ & _).
  split.
  - apply (Hattach "exec-aaaaaaaaaaaa0001" "connection refused");
      reflexivity.
  - apply (Hcreate "No such container"). reflexivity.
Defined.

(** X14: in the main.go revision the uploader puts, into the bucket
    "backups" and under the key made of the application name, '/', the
    RFC3339 time and '.sql', what the attached stream carries after its
    first group separator (0x1d): everything up to and including that
    byte is dropped, and a stream without one is uploaded as an empty
    object. *)
Theorem MainGo_upload_drops_first_group {W : Type}
    (b : MainGoBackuper.Backuper W) (appName : string) (w : W) :
  (∀ pre post, x1d ∉ pre →
     puts (trace (MainGoBackuper.UploadDump b appName
                    (pre ++ x1d :: post) w)) =
       [("backups",
         appName +:+ "/" +:+ RFC3339 (MainGoBackuper.Now b w).1 +:+ ".sql",
         post)]) ∧
  (∀ data, x1d ∉ data →
     puts (trace (MainGoBackuper.UploadDump b appName data w)) =
       [("backups",
         appName +:+ "/" +:+ RFC3339 (MainGoBackuper.Now b w).1 +:+ ".sql",
         [])]).
Proof.
  assert (∀ data,
    puts (trace (MainGoBackuper.UploadDump b appName data w)) =
      [("backups",
        appName +:+ "/" +:+ RFC3339 (MainGoBackuper.Now b w).1 +:+ ".sql",
        MainGoBackuper.afterReadBytes x1d data)]) as Hputs.
  { intros data. unfold MainGoBackuper.UploadDump.
    unfold mbind, M_bind, mret, M_ret, emit, call. simpl.
    destruct (MainGoBackuper.PutObject b _ _ _ _) as [[info [e|]] w'];
      done. }
  split.
  - intros pre post Hpre. by rewrite Hputs, afterReadBytes_found.
  - intros data Hdata. by rewrite Hputs, afterReadBytes_missing.
Qed.

(** X14 on a stream with a header before the separator and on one
    without separator. *)
Lemma MainGo_upload_drops_first_group_witness :
  puts (trace (MainGoBackuper.UploadDump (Cases.mainGo "" None []) "shop"
                 ([x01; x00] ++ x1d :: Demo.dump) tt)) =
    [("backups", "shop/2023-01-01T00:00:00Z.sql", Demo.dump)] ∧
  puts (trace (MainGoBackuper.UploadDump (Cases.mainGo "" None []) "shop"
                 Demo.dump tt)) =
    [("backups", "shop/2023-01-01T00:00:00Z.sql", [])].
Proof.
  destruct (MainGo_upload_drops_first_group (Cases.mainGo "" None [])
              "shop" tt) as [Hfound Hmissing].
  split.
  - apply (Hfound [x01; x00] Demo.dump).
    repeat (apply not_elem_of_cons; split; [discriminate|]).
    apply not_elem_of_nil.
  - apply (Hmissing Demo.dump).
    repeat (apply not_elem_of_cons; split; [discriminate|]).
    apply not_elem_of_nil.
Defined.
